(** * whisper-field: the persistence and retention engine of [backend/app.py]

    A shallow embedding of the Flask handlers of [backend/app.py] and of the
    two JSON files they keep, followed by the properties of the store:
    identifier allocation, the 48-hour expiry sweep with its cascade,
    ordering of the listings, and the denormalised reply counter.

    Conventions of the embedding.
    - A JSON record is a Rocq record; the dictionary keys ['id'],
      ['content'], ... become the fields [w_id], [w_content], ... of
      [Whisper] and [r_id], ... of [Reply].
    - Python integers are unbounded: identifiers and counters are in [Z].
    - An instant ([datetime]) is the number of microseconds since a fixed
      epoch, in [Z].  The files hold the text of [datetime.isoformat()];
      its lexicographic order is the order of the instants, so sorting on
      the stored key is sorting on the instant.
    - Text is [string]; a character stands for the code point of the same
      number.
    - The handlers run in a state monad over [World]: the two files, the
      clock read by [datetime.utcnow()], the outcomes of the coming
      [save_data] calls, and the journal of the files written.
    - The files hold well-typed records and the bodies of the requests
      well-typed fields, so that no key is missing and no handler leaves
      through its [except] clause; a file that cannot be parsed is a file
      without document, which [load_data] reads as the empty list.
    - One request is served at a time. *)

From Stdlib Require Import ZArith String Ascii.
From stdpp Require Import base tactics option list strings sorting.

Local Open Scope string_scope.
Local Open Scope list_scope.
Local Open Scope Z_scope.

(** ** Records *)

Record Whisper := mkWhisper {
  w_id : Z;
  w_content : string;
  w_topic : string;
  w_is_sensitive : bool;
  w_replies_count : Z;
  w_created_at : Z
}.

Record Reply := mkReply {
  r_id : Z;
  r_whisper_id : Z;
  r_content : string;
  r_created_at : Z
}.

(** [whisper['replies_count'] = n] *)
Definition set_replies_count (n : Z) (w : Whisper) : Whisper :=
  mkWhisper (w_id w) (w_content w) (w_topic w) (w_is_sensitive w) n
            (w_created_at w).

(** The body of a POST request, as [request.get_json()] gives it; a key that
    is absent is [None].  A missing body and the empty object have no
    ['content'] and take the same branch of the handlers. *)
Record Body := mkBody {
  content : option string;
  topic : option string;
  is_sensitive : option bool
}.

(** [jsonify({'success': True, 'data': d})] and
    [jsonify({'success': False, 'error': e}), status]. *)
Inductive Response (A : Type) : Type :=
| Success (data : A)
| Failure (status : Z) (error : string).
Arguments Success {A} data.
Arguments Failure {A} status error.

Definition is_success {A} (r : Response A) : Prop :=
  match r with Success _ => True | Failure _ _ => False end.

Definition response_data {A} (r : Response A) : option A :=
  match r with Success d => Some d | Failure _ _ => None end.

(** ** The files and the world around the handlers *)

Inductive Path := whispers_json | replies_json.

Inductive File : Type -> Type :=
| WHISPERS_FILE : File Whisper
| REPLIES_FILE : File Reply.

Definition path {A} (f : File A) : Path :=
  match f with WHISPERS_FILE => whispers_json | REPLIES_FILE => replies_json end.

(** What one call of [save_data] does to its file.
    - [Written]: [json.dump] completed, the function returns [True].
    - [OpenFailed]: [open(filename, 'w')] raised; the file keeps its old
      content, the function returns [False].
    - [DumpFailed]: the file was truncated by [open] and the dump raised
      before completing; what is left is not a JSON document, the function
      returns [False]. *)
Inductive SaveOutcome := Written | OpenFailed | DumpFailed.

(** A file holds [Some records] when it parses, [None] when it does not. *)
Record World := mkWorld {
  whispers_doc : option (list Whisper);
  replies_doc : option (list Reply);
  clock : Z;
  faults : list SaveOutcome;
  journal : list Path
}.

Definition doc {A} (f : File A) (w : World) : option (list A) :=
  match f in File T return option (list T) with
  | WHISPERS_FILE => whispers_doc w
  | REPLIES_FILE => replies_doc w
  end.

Definition set_doc {A} (f : File A) (d : option (list A)) (w : World) : World :=
  match f in File T return option (list T) -> World with
  | WHISPERS_FILE => fun d =>
      mkWorld d (replies_doc w) (clock w) (faults w) (journal w)
  | REPLIES_FILE => fun d =>
      mkWorld (whispers_doc w) d (clock w) (faults w) (journal w)
  end d.

(** One [save_data] call is attempted on [p]: its outcome is consumed and the
    attempt is journalled. *)
Definition attempt (p : Path) (w : World) : World :=
  mkWorld (whispers_doc w) (replies_doc w) (clock w) (tail (faults w))
          (journal w ++ [p]).

(** The environment between two requests: time passes, and the outcomes of
    the coming writes are whatever the file system will make them. *)
Definition with_env (t : Z) (fs : list SaveOutcome) (w : World) : World :=
  mkWorld (whispers_doc w) (replies_doc w) t fs (journal w).

(** The records a reader finds in each file. *)
Definition whispers (w : World) : list Whisper := default [] (whispers_doc w).
Definition replies (w : World) : list Reply := default [] (replies_doc w).

(** The state after [init_data()] on a fresh data directory. *)
Definition init_data (t : Z) : World := mkWorld (Some []) (Some []) t [] [].

(** ** The monad of the handlers *)

Definition M (A : Type) : Type := World -> A * World.

Definition ret {A} (a : A) : M A := fun w => (a, w).

Definition bind {A B} (m : M A) (k : A -> M B) : M B :=
  fun w => let (a, w') := m w in k a w'.

Notation "x <- m ;; k" := (bind m (fun x => k))
  (at level 100, m at next level, right associativity).

Definition eval {A} (m : M A) (w : World) : A := fst (m w).
Definition exec {A} (m : M A) (w : World) : World := snd (m w).

(** The handler [m] serving a request that arrives at instant [t]. *)
Definition at_time {A} (t : Z) (m : M A) : M A :=
  fun w => m (with_env t (faults w) w).

(** [datetime.utcnow()] *)
Definition utcnow : M Z := fun w => (clock w, w).

(** [timedelta(hours=h)] *)
Definition timedelta_hours (h : Z) : Z := h * 3600 * 1000000.

(** [load_data]: the records of the file, and [[]] when reading or parsing
    raises. *)
Definition load_data {A} (f : File A) : M (list A) :=
  fun w => (default [] (doc f w), w).

(** [save_data] *)
Definition save_data {A} (f : File A) (data : list A) : M bool :=
  fun w =>
    let w1 := attempt (path f) w in
    match head (faults w) with
    | None | Some Written => (true, set_doc f (Some data) w1)
    | Some OpenFailed => (false, w1)
    | Some DumpFailed => (false, set_doc f None w1)
    end.

(** ** Python built-ins used by the handlers *)

(** [max(l, default=d)] *)
Definition max_default (d : Z) (l : list Z) : Z :=
  match l with
  | [] => d
  | x :: xs => foldl Z.max x xs
  end.

(** [list.sort(key=..., reverse=...)] is stable, with and without [reverse]:
    records with equal keys keep their order.  The result of a stable sort is
    determined by the input; it is computed here by insertion. *)
Fixpoint insert_by {A} (before : A -> A -> bool) (x : A) (l : list A) : list A :=
  match l with
  | [] => [x]
  | y :: l' => if before x y then x :: l else y :: insert_by before x l'
  end.

(** Whether [a] goes before [b] when it is met first. *)
Definition key_before {A} (key : A -> Z) (reverse : bool) (a b : A) : bool :=
  if reverse then key b <=? key a else key a <=? key b.

Definition sort_by_key {A} (key : A -> Z) (reverse : bool) (l : list A) : list A :=
  foldr (insert_by (key_before key reverse)) [] l.

(** [str.isspace] on the code points below 256. *)
Definition isspace (c : ascii) : bool :=
  let n := Z.of_nat (nat_of_ascii c) in
  ((9 <=? n) && (n <=? 13)) || ((28 <=? n) && (n <=? 32))
  || (n =? 133) || (n =? 160).

Fixpoint lstrip (s : string) : string :=
  match s with
  | EmptyString => EmptyString
  | String c s' => if isspace c then lstrip s' else s
  end.

Fixpoint rstrip (s : string) : string :=
  match s with
  | EmptyString => EmptyString
  | String c s' =>
      match rstrip s' with
      | EmptyString => if isspace c then EmptyString else String c EmptyString
      | t => String c t
      end
  end.

(** [str.strip()] *)
Definition strip (s : string) : string := rstrip (lstrip s).

(** [data.get('content')] when it is truthy: present and not the empty
    string. *)
Definition truthy_content (data : Body) : option string :=
  match content data with
  | None => None
  | Some EmptyString => None
  | Some c => Some c
  end.

(** ** The handlers *)

Definition ALL_TOPICS : list string :=
  [ "confession"; "life"; "secrets"; "advice"; "love";
    "series-movies"; "politically-incorrect"; "paranormal";
    "health-fitness"; "vent"; "music"; "fashion";
    "gaming"; "otaku-stuff"; "random" ].

(** The [for whisper in whispers] loop of [cleanup_old_whispers], with its
    two accumulators. *)
Fixpoint sweep (cutoff_time : Z) (whispers : list Whisper)
         (filtered_whispers : list Whisper) (deleted_ids : list Z)
  : list Whisper * list Z :=
  match whispers with
  | [] => (filtered_whispers, deleted_ids)
  | whisper :: rest =>
      if decide (cutoff_time < w_created_at whisper)
      then sweep cutoff_time rest (filtered_whispers ++ [whisper]) deleted_ids
      else sweep cutoff_time rest filtered_whispers
                 (deleted_ids ++ [w_id whisper])
  end.

Definition cleanup_old_whispers : M bool :=
  whispers <- load_data WHISPERS_FILE ;;
  now <- utcnow ;;
  let cutoff_time := now - timedelta_hours 48 in
  let '(filtered_whispers, deleted_ids) := sweep cutoff_time whispers [] [] in
  match deleted_ids with
  | _ :: _ =>
      replies <- load_data REPLIES_FILE ;;
      let filtered_replies :=
        filter (fun r => r_whisper_id r ∉ deleted_ids) replies in
      _ <- save_data REPLIES_FILE filtered_replies ;;
      _ <- save_data WHISPERS_FILE filtered_whispers ;;
      ret true
  | [] => ret true
  end.

(** [GET /api/whispers?topic=...]; [topic] is [None] when the query has no
    such argument. *)
Definition get_whispers (topic : option string) : M (Response (list Whisper)) :=
  _ <- cleanup_old_whispers ;;
  let topic := default "all" topic in
  whispers <- load_data WHISPERS_FILE ;;
  let whispers :=
    if decide (topic <> "all")
    then filter (fun w => w_topic w = topic) whispers
    else whispers in
  let whispers := sort_by_key w_created_at true whispers in
  ret (Success whispers).

(** [GET /api/whispers/<id>] *)
Definition get_whisper (id : Z) : M (Response Whisper) :=
  whispers <- load_data WHISPERS_FILE ;;
  match list_find (fun w => w_id w = id) whispers with
  | None => ret (Failure 404 "Whisper not found")
  | Some (_, whisper) => ret (Success whisper)
  end.

(** [POST /api/whispers] *)
Definition create_whisper (data : Body) : M (Response Whisper) :=
  match truthy_content data with
  | None => ret (Failure 400 "Content is required")
  | Some text =>
      whispers <- load_data WHISPERS_FILE ;;
      let max_id := max_default 0 (w_id <$> whispers) in
      now <- utcnow ;;
      let whisper :=
        mkWhisper (max_id + 1) (strip text) (default "random" (topic data))
                  (default false (is_sensitive data)) 0 now in
      let whispers := whispers ++ [whisper] in
      saved <- save_data WHISPERS_FILE whispers ;;
      if saved : bool then ret (Success whisper)
      else ret (Failure 500 "Failed to save whisper")
  end.

(** [GET /api/whispers/<id>/replies] *)
Definition get_replies (id : Z) : M (Response (list Reply)) :=
  replies <- load_data REPLIES_FILE ;;
  let whisper_replies := filter (fun r => r_whisper_id r = id) replies in
  let whisper_replies := sort_by_key r_created_at false whisper_replies in
  ret (Success whisper_replies).

(** [POST /api/whispers/<id>/replies].  [whisper] is the element of
    [whispers] at index [i], not a copy: assigning its ['replies_count']
    changes the list that is saved afterwards. *)
Definition create_reply (id : Z) (data : Body) : M (Response Reply) :=
  match truthy_content data with
  | None => ret (Failure 400 "Content is required")
  | Some text =>
      whispers <- load_data WHISPERS_FILE ;;
      match list_find (fun w => w_id w = id) whispers with
      | None => ret (Failure 404 "Whisper not found")
      | Some (i, whisper) =>
          replies <- load_data REPLIES_FILE ;;
          let max_id := max_default 0 (r_id <$> replies) in
          now <- utcnow ;;
          let reply := mkReply (max_id + 1) id (strip text) now in
          let replies := replies ++ [reply] in
          saved <- save_data REPLIES_FILE replies ;;
          if saved : bool then
            let count :=
              Z.of_nat (length (filter (fun r => r_whisper_id r = id) replies)) in
            let whispers := <[i := set_replies_count count whisper]> whispers in
            _ <- save_data WHISPERS_FILE whispers ;;
            ret (Success reply)
          else ret (Failure 500 "Failed to save reply")
      end
  end.

(** [GET /api/topics] *)
Definition get_topics : M (Response (list string)) := ret (Success ALL_TOPICS).

(** ** Sequences of requests *)

(** The same handler serving a list of requests one after the other, each
    arriving at its own instant. *)
Fixpoint serve_all {B A} (handler : B -> M (Response A)) (calls : list (Z * B))
  : M (list (Response A)) :=
  match calls with
  | [] => ret []
  | (t, b) :: rest =>
      r <- at_time t (handler b) ;;
      rs <- serve_all handler rest ;;
      ret (r :: rs)
  end.

(** The number of replies of the file that reference whisper [id]. *)
Definition references (id : Z) (rs : list Reply) : Z :=
  Z.of_nat (length (filter (fun r => r_whisper_id r = id) rs)).

(** The instant before or at which a whisper is expired, for a sweep that
    runs in [w]. *)
Definition cutoff (w : World) : Z := clock w - timedelta_hours 48.

(** ** Worked requests *)

Definition hello : Body := mkBody (Some "hello") (Some "vent") None.
Definition hi : Body := mkBody (Some "hi") None None.


(** The two parts into which a sweep running in [w] splits the whispers. *)
Definition kept (w : World) : list Whisper :=
  filter (fun x => cutoff w < w_created_at x) (whispers w).
Definition expired (w : World) : list Whisper :=
  filter (fun x => ~ cutoff w < w_created_at x) (whispers w).

(** The order a listing sorted on [key] has. *)
Definition in_order {A} (key : A -> Z) (reverse : bool) (a b : A) : Prop :=
  if reverse then key b <= key a else key a <= key b.

(** What a reader finds in a file that held [old] after an attempt to save
    [new] in it; no scheduled outcome means the write goes through. *)
Definition found_after {A} (o : option SaveOutcome) (old new : list A) : list A :=
  match o with
  | None | Some Written => new
  | Some OpenFailed => old
  | Some DumpFailed => []
  end.

(** The identifier a creation answered with. *)
Definition assigned_id (r : Response Whisper) : option Z :=
  w_id <$> response_data r.

(** No two records of a file carry the same identifier. *)
Definition distinct_ids (w : World) : Prop :=
  NoDup (w_id <$> whispers w) /\ NoDup (r_id <$> replies w).

(** The requests of the API, and the world each leaves behind. *)
Inductive Request :=
| ListWhispers (topic : option string)
| GetWhisper (id : Z)
| CreateWhisper (data : Body)
| ListReplies (id : Z)
| CreateReply (id : Z) (data : Body).

Definition after (rq : Request) (w : World) : World :=
  match rq with
  | ListWhispers topic => exec (get_whispers topic) w
  | GetWhisper id => exec (get_whisper id) w
  | CreateWhisper data => exec (create_whisper data) w
  | ListReplies id => exec (get_replies id) w
  | CreateReply id data => exec (create_reply id data) w
  end.

(** The scenario of the board's first days: a whisper at instant 0, a reply to
    it a millisecond later, and the clock 49 hours after the whisper. *)
Definition after_hello : World := exec (create_whisper hello) (init_data 0).
Definition after_hi : World := exec (at_time 1000 (create_reply 1 hi)) after_hello.
Definition two_days_later : World := with_env (timedelta_hours 49) [] after_hi.

(** The store is consistent when identifiers are distinct, every reply
    references a whisper of the file, and the counter of every whisper is the
    number of replies that reference it. *)
Definition consistent (w : World) : Prop :=
  distinct_ids w
  /\ (forall r, r ∈ replies w -> r_whisper_id r ∈ (w_id <$> whispers w))
  /\ (forall x, x ∈ whispers w ->
                w_replies_count x = references (w_id x) (replies w)).

(** The worlds the API reaches from a fresh data directory when every write
    goes through; requests arrive at arbitrary instants. *)
Inductive reachable : World -> Prop :=
| reachable_init (t : Z) : reachable (init_data t)
| reachable_step (w : World) (t : Z) (rq : Request) :
    reachable w -> reachable (after rq (with_env t [] w)).

(** ** Notions used to state what the rest of the code does *)

(** A history of the service: each request with the instant at which it
    arrives and the outcomes its writes will meet. *)
Definition run (history : list (Z * list SaveOutcome * Request)) (w : World)
  : World :=
  foldl (fun v '(t, fs, rq) => after rq (with_env t fs v)) w history.

(** Identifiers start at 1 and grow along the file. *)
Definition ascending (ids : list Z) : Prop :=
  StronglySorted Z.lt ids /\ Forall (fun i => 1 <= i) ids.

Definition ascending_ids (w : World) : Prop :=
  ascending (w_id <$> whispers w) /\ ascending (r_id <$> replies w).

(** Text made of white space only. *)
Fixpoint blank (s : string) : Prop :=
  match s with
  | EmptyString => True
  | String c s' => isspace c = true /\ blank s'
  end.

(** Text with no white space at its start, and at its end. *)
Definition clean_start (s : string) : Prop :=
  match s with
  | EmptyString => True
  | String c _ => isspace c = false
  end.

Fixpoint clean_end (s : string) : Prop :=
  match s with
  | EmptyString => True
  | String c EmptyString => isspace c = false
  | String _ s' => clean_end s'
  end.

(** The whispers a listing with argument [topic] selects. *)
Definition selected (topic : option string) (x : Whisper) : Prop :=
  default "all" topic = "all" \/ w_topic x = default "all" topic.

(** The identifiers of the whispers a sweep in [w] deletes. *)
Definition deleted_ids (w : World) : list Z := w_id <$> expired w.

(** Two records of the same post: they differ at most in the counter of
    replies. *)
Definition same_post (a b : Whisper) : Prop :=
  set_replies_count 0 a = set_replies_count 0 b.

(** ** The POST handlers as Flask calls them *)

(** What a handler can observe of the Python value that [json.loads] made of
    a JSON value: its type and whether it is truthy, and for a [str] the
    text.  [PyDict] is a dict that has none of the keys the handlers ask
    for. *)
Inductive PyValue :=
| PyNone
| PyBool (b : bool)
| PyInt (n : Z)
| PyFloat (nonzero : bool)
| PyStr (s : string)
| PyList (nonempty : bool)
| PyDict (nonempty : bool).

(** [type(v).__name__] *)
Definition py_type (v : PyValue) : string :=
  match v with
  | PyNone => "NoneType"
  | PyBool _ => "bool"
  | PyInt _ => "int"
  | PyFloat _ => "float"
  | PyStr _ => "str"
  | PyList _ => "list"
  | PyDict _ => "dict"
  end.

(** [bool(v)] *)
Definition py_truthy (v : PyValue) : bool :=
  match v with
  | PyNone => false
  | PyBool b => b
  | PyInt n => negb (n =? 0)
  | PyFloat nonzero => nonzero
  | PyStr s => negb (String.eqb s "")
  | PyList nonempty => nonempty
  | PyDict nonempty => nonempty
  end.

(** The body of a POST request as [request.get_json()] deals with it: the
    call raises (no JSON media type, text that is not JSON), or returns the
    Python value of the JSON text.  In a dict the content is any value; the
    topic and the flag, when present, are a string and a boolean. *)
Inductive JsonBody :=
| NotDict (v : PyValue)
| Dict (content : option PyValue) (topic : option string)
       (is_sensitive : option bool).

Inductive Payload :=
| GetJsonRaises (message : string)
| GetJsonReturns (data : JsonBody).

(** A computation that returns or raises; [inl message] is an exception [e]
    with [str(e) = message]. *)
Definition Raising (A : Type) : Type := M (string + A).

Definition returns {A} (a : A) : Raising A := ret (inr a).
Definition raise {A} (message : string) : Raising A := ret (inl message).
Definition lift {A} (m : M A) : Raising A := a <- m ;; ret (inr a).

Definition bind_raising {A B} (m : Raising A) (k : A -> Raising B) : Raising B :=
  r <- m ;;
  match r with
  | inl message => ret (inl message)
  | inr a => k a
  end.

Notation "x <~ m ;; k" := (bind_raising m (fun x => k))
  (at level 100, m at next level, right associativity).

(** [try: ... except Exception as e: return jsonify({'success': False,
    'error': str(e)}), 500] *)
Definition except_Exception {A} (body : Raising (Response A)) : M (Response A) :=
  r <- body ;;
  match r with
  | inl message => ret (Failure 500 message)
  | inr answer => ret answer
  end.

(** [AttributeError]: ['int' object has no attribute 'strip']. *)
Definition AttributeError (v : PyValue) (attribute : string) : string :=
  "'" +:+ py_type v +:+ "' object has no attribute '" +:+ attribute +:+ "'".

Definition get_json (request : Payload) : Raising JsonBody :=
  match request with
  | GetJsonRaises message => raise message
  | GetJsonReturns data => returns data
  end.

(** [bool(data)]; a dict is taken to hold a key, the empty dict reaching the
    same answer through [data.get('content')]. *)
Definition data_truthy (data : JsonBody) : bool :=
  match data with
  | NotDict v => py_truthy v
  | Dict _ _ _ => true
  end.

(** [data.get('content')] *)
Definition data_get_content (data : JsonBody) : Raising (option PyValue) :=
  match data with
  | NotDict (PyDict _) => returns None
  | NotDict v => raise (AttributeError v "get")
  | Dict content _ _ => returns content
  end.

(** [data.get('topic', 'random')] and [data.get('is_sensitive', False)], once
    [data.get('content')] has shown [data] to be a dict. *)
Definition data_get_topic (data : JsonBody) : string :=
  match data with
  | Dict _ topic _ => default "random" topic
  | NotDict _ => "random"
  end.

Definition data_get_is_sensitive (data : JsonBody) : bool :=
  match data with
  | Dict _ _ is_sensitive => default false is_sensitive
  | NotDict _ => false
  end.

(** [not data or not data.get('content')], with its short circuit. *)
Definition content_missing (data : JsonBody) : Raising bool :=
  if data_truthy data
  then content <~ data_get_content data ;;
       returns (negb (from_option py_truthy false content))
  else returns true.

(** [data['content'].strip()] *)
Definition data_content_strip (data : JsonBody) : Raising string :=
  match data with
  | Dict (Some (PyStr s)) _ _ => returns (strip s)
  | Dict (Some v) _ _ => raise (AttributeError v "strip")
  | _ => raise "'content'"
  end.

(** [create_whisper] with its [try] and its [except]. *)
Definition create_whisper_handler (request : Payload) : M (Response Whisper) :=
  except_Exception
    (data <~ get_json request ;;
     missing <~ content_missing data ;;
     if missing : bool then returns (Failure 400 "Content is required")
     else
       whispers <~ lift (load_data WHISPERS_FILE) ;;
       let max_id := max_default 0 (w_id <$> whispers) in
       text <~ data_content_strip data ;;
       now <~ lift utcnow ;;
       let whisper :=
         mkWhisper (max_id + 1) text (data_get_topic data)
                   (data_get_is_sensitive data) 0 now in
       let whispers := whispers ++ [whisper] in
       saved <~ lift (save_data WHISPERS_FILE whispers) ;;
       if saved : bool then returns (Success whisper)
       else returns (Failure 500 "Failed to save whisper")).

(** [create_reply] with its [try] and its [except]. *)
Definition create_reply_handler (id : Z) (request : Payload)
  : M (Response Reply) :=
  except_Exception
    (data <~ get_json request ;;
     missing <~ content_missing data ;;
     if missing : bool then returns (Failure 400 "Content is required")
     else
       whispers <~ lift (load_data WHISPERS_FILE) ;;
       match list_find (fun w => w_id w = id) whispers with
       | None => returns (Failure 404 "Whisper not found")
       | Some (i, whisper) =>
           replies <~ lift (load_data REPLIES_FILE) ;;
           let max_id := max_default 0 (r_id <$> replies) in
           text <~ data_content_strip data ;;
           now <~ lift utcnow ;;
           let reply := mkReply (max_id + 1) id text now in
           let replies := replies ++ [reply] in
           saved <~ lift (save_data REPLIES_FILE replies) ;;
           if saved : bool then
             let count :=
               Z.of_nat
                 (length (filter (fun r => r_whisper_id r = id) replies)) in
             let whispers :=
               <[i := set_replies_count count whisper]> whispers in
             _ <~ lift (save_data WHISPERS_FILE whispers) ;;
             returns (Success reply)
           else returns (Failure 500 "Failed to save reply")
       end).

(** A body whose content, when present, is a [str], as a payload. *)
Definition typed_body (data : Body) : Payload :=
  GetJsonReturns (Dict (PyStr <$> content data) (topic data) (is_sensitive data)).

(** The requests that end in the handlers' [except] clause: [get_json]
    raises, the body is a truthy value without [get], or the content is a
    truthy value without [strip]. *)
Definition raises_in_handler (request : Payload) : option string :=
  match request with
  | GetJsonRaises message => Some message
  | GetJsonReturns (NotDict (PyDict _)) => None
  | GetJsonReturns (NotDict v) =>
      if py_truthy v then Some (AttributeError v "get") else None
  | GetJsonReturns (Dict (Some (PyStr _)) _ _) => None
  | GetJsonReturns (Dict (Some v) _ _) =>
      if py_truthy v then Some (AttributeError v "strip") else None
  | GetJsonReturns (Dict None _ _) => None
  end.

(** The truthy content of a request, of whatever type, when it has one. *)
Definition content_of (request : Payload) : option PyValue :=
  match request with
  | GetJsonReturns (Dict (Some v) _ _) => if py_truthy v then Some v else None
  | _ => None
  end.

(** The requests without content: the body is falsy, has no content, or has
    a falsy content. *)
Definition without_content (request : Payload) : bool :=
  match request with
  | GetJsonRaises _ => false
  | GetJsonReturns (NotDict (PyDict _)) => true
  | GetJsonReturns (NotDict v) => negb (py_truthy v)
  | GetJsonReturns (Dict None _ _) => true
  | GetJsonReturns (Dict (Some v) _ _) => negb (py_truthy v)
  end.

(** Running the plumbing of a handler: binds, loads and clock readings. *)
Ltac step_handler :=
  unfold bind, ret, load_data, utcnow, eval, exec, at_time; simpl.

(** * Properties *)

(** ** The built-ins *)

Section Builtins.

Lemma foldl_max_upper (xs : list Z) (x y : Z) :
  y <= x \/ y ∈ xs -> y <= foldl Z.max x xs.
Proof.
  revert x. induction xs as [|z xs IH]; intros x; simpl.
  - intros [?|?%elem_of_nil]; done.
  - intros [?|[->|?]%elem_of_cons]; apply IH; auto; left; lia.
Qed.

Lemma max_default_upper (d : Z) (l : list Z) (y : Z) :
  y ∈ l -> y <= max_default d l.
Proof.
  destruct l as [|x xs]; [by intros ?%elem_of_nil|]. simpl.
  intros [->|?]%elem_of_cons; apply foldl_max_upper; auto. left; lia.
Qed.

Lemma max_default_member (d : Z) (l : list Z) :
  l <> [] -> max_default d l ∈ l.
Proof.
  destruct l as [|x xs]; [done|]. intros _. simpl.
  revert x. induction xs as [|z xs IH]; intros x; simpl.
  - left.
  - destruct (Z.max_spec x z) as [[_ ->]|[_ ->]].
    + right. apply IH.
    + specialize (IH x). apply elem_of_cons in IH as [->|IH].
      * left.
      * right. by right.
Qed.

(** The source's [max_id + 1] is above every identifier present. *)
Lemma next_id_fresh (l : list Z) (y : Z) :
  y ∈ l -> y < max_default 0 l + 1.
Proof. intros Hy%(max_default_upper 0). lia. Qed.

Lemma max_default_seqZ (n : nat) :
  max_default 0 (seqZ 1 (Z.of_nat n)) = Z.of_nat n.
Proof.
  destruct n as [|n]; [done|].
  assert (Hne : seqZ 1 (Z.of_nat (S n)) <> []).
  { intros E%(f_equal length). rewrite length_seqZ in E. simpl in E. lia. }
  pose proof (max_default_member 0 _ Hne) as Hm.
  apply elem_of_seqZ in Hm.
  assert (Hk : Z.of_nat (S n) ∈ seqZ 1 (Z.of_nat (S n)))
    by (apply elem_of_seqZ; lia).
  apply (max_default_upper 0) in Hk. lia.
Qed.

Context {A : Type} (key : A -> Z) (reverse : bool).

Lemma insert_by_perm (x : A) (l : list A) :
  insert_by (key_before key reverse) x l ≡ₚ x :: l.
Proof.
  induction l as [|y l IH]; simpl; [done|].
  destruct (key_before key reverse x y); [done|].
  rewrite IH. apply Permutation_swap.
Qed.

Lemma insert_by_sorted (x : A) (l : list A) :
  StronglySorted (in_order key reverse) l ->
  StronglySorted (in_order key reverse) (insert_by (key_before key reverse) x l).
Proof.
  induction 1 as [|y l Hl IH Hy]; simpl.
  - repeat constructor.
  - destruct (key_before key reverse x y) eqn:E.
    + constructor; [by constructor|].
      assert (Hxy : in_order key reverse x y).
      { unfold in_order, key_before in *. destruct reverse; lia. }
      constructor; [done|].
      eapply Forall_impl; [exact Hy|]. intros z Hz.
      unfold in_order in *. destruct reverse; lia.
    + constructor; [done|].
      rewrite insert_by_perm. constructor; [|done].
      unfold in_order, key_before in *. destruct reverse; lia.
Qed.

Lemma sort_by_key_perm (l : list A) : sort_by_key key reverse l ≡ₚ l.
Proof.
  induction l as [|x l IH]; [done|].
  unfold sort_by_key in *. simpl.
  by rewrite insert_by_perm, IH.
Qed.

Lemma sort_by_key_sorted (l : list A) :
  StronglySorted (in_order key reverse) (sort_by_key key reverse l).
Proof.
  induction l as [|x l IH]; [constructor|].
  unfold sort_by_key in *. simpl.
  by apply insert_by_sorted.
Qed.

(** Stability: the records of one key keep the order they had. *)
Lemma insert_by_stable (k : Z) (x : A) (l : list A) :
  filter (fun a => key a = k) (insert_by (key_before key reverse) x l)
  = filter (fun a => key a = k) (x :: l).
Proof.
  induction l as [|y l IH]; simpl; [done|].
  destruct (key_before key reverse x y) eqn:E; [done|].
  rewrite !filter_cons in *. rewrite IH.
  destruct (decide (key x = k)) as [Hx|]; [|done].
  destruct (decide (key y = k)) as [Hy|]; [|done].
  exfalso. unfold key_before in E. destruct reverse; lia.
Qed.

Lemma sort_by_key_stable (k : Z) (l : list A) :
  filter (fun a => key a = k) (sort_by_key key reverse l)
  = filter (fun a => key a = k) l.
Proof.
  induction l as [|x l IH]; [done|].
  unfold sort_by_key in *. simpl.
  rewrite insert_by_stable, !filter_cons. by rewrite IH.
Qed.

Lemma elem_of_sort_by_key (x : A) (l : list A) :
  x ∈ sort_by_key key reverse l <-> x ∈ l.
Proof. by rewrite sort_by_key_perm. Qed.

End Builtins.

(** ** The expiry sweep *)

Lemma sweep_filter (c : Z) (ws acc : list Whisper) (dl : list Z) :
  sweep c ws acc dl
  = (acc ++ filter (fun x => c < w_created_at x) ws,
     dl ++ (w_id <$> filter (fun x => ~ c < w_created_at x) ws)).
Proof.
  revert acc dl. induction ws as [|x ws IH]; intros acc dl; simpl.
  - by rewrite !app_nil_r.
  - rewrite !filter_cons. destruct (decide (c < w_created_at x)) as [Hx|Hx].
    + rewrite IH, decide_False by tauto. by rewrite <- app_assoc.
    + rewrite IH, decide_True by done. by rewrite fmap_cons, <- app_assoc.
Qed.

(** What a sweep does, whatever the outcomes of its two writes. *)
Lemma cleanup_run (w : World) :
  cleanup_old_whispers w
  = (true,
     match expired w with
     | [] => w
     | _ :: _ =>
         exec (save_data WHISPERS_FILE (kept w))
           (exec (save_data REPLIES_FILE
                    (filter (fun r => r_whisper_id r ∉ (w_id <$> expired w))
                            (replies w))) w)
     end).
Proof.
  unfold cleanup_old_whispers. step_handler.
  rewrite sweep_filter. simpl.
  unfold expired, kept, cutoff, whispers, replies.
  destruct (filter (fun x => ~ _ < _) _) as [|x l]; simpl; [done|].
  destruct (save_data REPLIES_FILE _ w) as [b1 w1]; simpl.
  by destruct (save_data WHISPERS_FILE _ w1) as [b2 w2].
Qed.

Lemma expired_nil_iff (w : World) :
  expired w = [] <-> Forall (fun x => cutoff w < w_created_at x) (whispers w).
Proof.
  unfold expired. induction (whispers w) as [|x l IH]; [by split|].
  rewrite filter_cons, Forall_cons.
  destruct (decide (~ cutoff w < w_created_at x)) as [Hx|Hx].
  - split; [done|]. intros [? _]. tauto.
  - rewrite IH. split; [|tauto]. intros ?. split; [lia|done].
Qed.

Lemma cleanup_noop (w : World) :
  expired w = [] -> cleanup_old_whispers w = (true, w).
Proof. intros E. by rewrite cleanup_run, E. Qed.

(** The sweep when both of its writes succeed. *)
Lemma cleanup_written (w : World) :
  faults w = [] -> expired w <> [] ->
  exec cleanup_old_whispers w
  = mkWorld (Some (kept w))
            (Some (filter (fun r => r_whisper_id r ∉ (w_id <$> expired w))
                          (replies w)))
            (clock w) [] (journal w ++ [replies_json; whispers_json]).
Proof.
  intros Hf He. unfold exec at 1. rewrite cleanup_run. simpl.
  destruct (expired w) as [|x l]; [done|].
  unfold exec, save_data, attempt. rewrite Hf. simpl.
  by rewrite <- app_assoc.
Qed.

Lemma kept_fresh (w : World) :
  Forall (fun x => cutoff w < w_created_at x) (kept w).
Proof. apply Forall_forall. by intros x [? _]%list_elem_of_filter. Qed.

(** ** Idempotence of the sweep *)

(** C5.  With the writes of the first sweep succeeding, a second sweep at the
    same instant leaves the world as the first one left it: both files, and
    the journal, so the second sweep wrote nothing.  And a sweep that finds
    no expired whisper returns with the world untouched, no write attempted,
    whatever the file system would have answered. *)
Theorem expire_idempotent (w : World) :
  (faults w = [] ->
   exec cleanup_old_whispers (exec cleanup_old_whispers w)
   = exec cleanup_old_whispers w)
  /\ (expired w = [] -> cleanup_old_whispers w = (true, w)).
Proof.
  split; [|apply cleanup_noop].
  intros Hf. destruct (decide (expired w = [])) as [He|He].
  - unfold exec. rewrite (cleanup_noop w He). simpl.
    by rewrite (cleanup_noop w He).
  - rewrite (cleanup_written w) by done.
    unfold exec. rewrite cleanup_noop; [done|].
    apply expired_nil_iff. unfold whispers, cutoff. simpl. apply kept_fresh.
Qed.

Lemma expire_idempotent_witness :
  faults two_days_later = []
  /\ exec cleanup_old_whispers (exec cleanup_old_whispers two_days_later)
     = exec cleanup_old_whispers two_days_later
  /\ expired after_hi = []
  /\ cleanup_old_whispers after_hi = (true, after_hi).
Proof.
  split; [reflexivity|]. split.
  - apply (proj1 (expire_idempotent two_days_later)). reflexivity.
  - split; [reflexivity|].
    apply (proj2 (expire_idempotent after_hi)). reflexivity.
Defined.

(** ** What the readers return *)

Lemma save_data_whispers (data : list Whisper) (w : World) :
  whispers (exec (save_data WHISPERS_FILE data) w) = data
  \/ whispers (exec (save_data WHISPERS_FILE data) w) = whispers w
  \/ whispers (exec (save_data WHISPERS_FILE data) w) = [].
Proof.
  unfold exec, save_data, whispers.
  destruct (head (faults w)) as [[]|]; simpl; auto.
Qed.

Lemma save_data_replies (data : list Reply) (w : World) :
  replies (exec (save_data REPLIES_FILE data) w) = data
  \/ replies (exec (save_data REPLIES_FILE data) w) = replies w
  \/ replies (exec (save_data REPLIES_FILE data) w) = [].
Proof.
  unfold exec, save_data, replies.
  destruct (head (faults w)) as [[]|]; simpl; auto.
Qed.

Lemma save_data_other_whispers (data : list Reply) (w : World) :
  whispers (exec (save_data REPLIES_FILE data) w) = whispers w.
Proof.
  unfold exec, save_data, whispers. by destruct (head (faults w)) as [[]|].
Qed.

Lemma save_data_other_replies (data : list Whisper) (w : World) :
  replies (exec (save_data WHISPERS_FILE data) w) = replies w.
Proof.
  unfold exec, save_data, replies. by destruct (head (faults w)) as [[]|].
Qed.

(** A sweep never adds a record, whatever happens to its writes. *)
Lemma cleanup_whispers_subseteq (w : World) :
  whispers (exec cleanup_old_whispers w) ⊆ whispers w.
Proof.
  unfold exec at 1. rewrite cleanup_run. simpl.
  destruct (expired w) as [|x l]; [done|].
  destruct (save_data_whispers (kept w)
              (exec (save_data REPLIES_FILE
                 (filter (fun r => r_whisper_id r ∉ (w_id <$> x :: l))
                         (replies w))) w)) as [->|[->| ->]].
  - intros y [_ ?]%list_elem_of_filter. done.
  - by rewrite save_data_other_whispers.
  - apply list_subseteq_nil.
Qed.

Lemma cleanup_replies_subseteq (w : World) :
  replies (exec cleanup_old_whispers w) ⊆ replies w.
Proof.
  unfold exec at 1. rewrite cleanup_run. simpl.
  destruct (expired w) as [|x l]; [done|].
  rewrite save_data_other_replies.
  destruct (save_data_replies
              (filter (fun r => r_whisper_id r ∉ (w_id <$> x :: l)) (replies w))
              w) as [->|[->| ->]].
  - intros y [_ ?]%list_elem_of_filter. done.
  - done.
  - apply list_subseteq_nil.
Qed.

Lemma get_whispers_run (topic : option string) (w : World) :
  get_whispers topic w
  = (Success
       (sort_by_key w_created_at true
          (if decide (default "all" topic <> "all")
           then filter (fun x => w_topic x = default "all" topic)
                       (whispers (exec cleanup_old_whispers w))
           else whispers (exec cleanup_old_whispers w))),
     exec cleanup_old_whispers w).
Proof.
  unfold get_whispers. step_handler.
  by destruct (cleanup_old_whispers w) as [b w1].
Qed.

Lemma get_whispers_elem (topic : option string) (w : World)
      (ws : list Whisper) (y : Whisper) :
  eval (get_whispers topic) w = Success ws -> y ∈ ws ->
  y ∈ whispers (exec cleanup_old_whispers w).
Proof.
  unfold eval. rewrite get_whispers_run. simpl. intros [= <-].
  rewrite elem_of_sort_by_key. case_decide; [|done].
  by intros [_ ?]%list_elem_of_filter.
Qed.

Lemma get_whisper_elem (id : Z) (w : World) (y : Whisper) :
  eval (get_whisper id) w = Success y -> y ∈ whispers w /\ w_id y = id.
Proof.
  unfold get_whisper. step_handler. fold (whispers w).
  destruct (list_find _ _) as [[i z]|] eqn:E; simpl; [|done].
  intros [= ->]. apply list_find_Some in E as (E & ? & _).
  split; [|done]. by eapply list_elem_of_lookup_2.
Qed.

Lemma get_whisper_missing (id : Z) (w : World) :
  (forall y, y ∈ whispers w -> w_id y <> id) ->
  eval (get_whisper id) w = Failure 404 "Whisper not found".
Proof.
  intros H. unfold get_whisper. step_handler. fold (whispers w).
  destruct (list_find _ _) as [[i z]|] eqn:E; simpl; [|done].
  apply list_find_Some in E as (E & ? & _).
  apply list_elem_of_lookup_2 in E. by destruct (H z E).
Qed.

Lemma fmap_NoDup_inj {A B} (f : A -> B) (l : list A) (x y : A) :
  NoDup (f <$> l) -> x ∈ l -> y ∈ l -> f x = f y -> x = y.
Proof.
  induction l as [|a l IH]; [by intros _ ?%elem_of_nil|].
  rewrite fmap_cons, NoDup_cons.
  intros [Ha Hl] [->|Hx]%elem_of_cons [->|Hy]%elem_of_cons E; auto.
  - destruct Ha. rewrite E. by apply list_elem_of_fmap_2.
  - destruct Ha. rewrite <- E. by apply list_elem_of_fmap_2.
Qed.

(** ** Cascade *)

(** C6, amended.  A sweep whose two writes succeed removes every whisper
    created at or before its cutoff (48 hours before the clock) together with
    the replies that reference it: no reply with its id is left in the
    replies file, and whenever and however the next listing or lookup is
    served, the whisper is not in the answer; when identifiers are distinct,
    a lookup of its id answers 404.  Nothing is said of a sweep one of whose
    writes fails. *)
Theorem cascade_complete (w : World) (x : Whisper) :
  faults w = [] -> x ∈ whispers w -> w_created_at x <= cutoff w ->
  let w' := exec cleanup_old_whispers w in
  (forall r, r ∈ replies w' -> r_whisper_id r <> w_id x)
  /\ (forall t fs topic,
        exists ws, eval (get_whispers topic) (with_env t fs w') = Success ws
                   /\ x ∉ ws)
  /\ (forall t fs id, eval (get_whisper id) (with_env t fs w') <> Success x)
  /\ (NoDup (w_id <$> whispers w) ->
      forall t fs, eval (get_whisper (w_id x)) (with_env t fs w')
                   = Failure 404 "Whisper not found").
Proof.
  intros Hf Hx Hold w'.
  assert (Hexp : x ∈ expired w).
  { apply list_elem_of_filter. split; [lia|done]. }
  assert (Hne : expired w <> []).
  { intros E. rewrite E in Hexp. by apply elem_of_nil in Hexp. }
  assert (Hw' : forall t fs, whispers (with_env t fs w') = kept w).
  { intros t fs. subst w'. by rewrite cleanup_written. }
  assert (Hkept : x ∉ kept w).
  { intros [? _]%list_elem_of_filter. lia. }
  split_and!.
  - intros r. subst w'. rewrite cleanup_written by done.
    unfold replies at 1. simpl. intros [Hr _]%list_elem_of_filter E.
    apply Hr. rewrite E. by apply list_elem_of_fmap_2.
  - intros t fs topic. unfold eval at 1. rewrite get_whispers_run. simpl.
    eexists. split; [done|]. intros Hin.
    eapply get_whispers_elem in Hin;
      [|unfold eval; by rewrite get_whispers_run].
    apply cleanup_whispers_subseteq in Hin. by rewrite Hw' in Hin.
  - intros t fs id [Hin _]%get_whisper_elem. by rewrite Hw' in Hin.
  - intros Hnd t fs. apply get_whisper_missing. intros y. rewrite Hw'.
    intros [Hfresh Hy]%list_elem_of_filter E.
    rewrite (fmap_NoDup_inj w_id (whispers w) y x Hnd Hy Hx E) in Hfresh. lia.
Qed.

Lemma cascade_complete_witness :
  faults two_days_later = []
  /\ mkWhisper 1 "hello" "vent" false 1 0 ∈ whispers two_days_later
  /\ 0 <= cutoff two_days_later
  /\ (forall r, r ∈ replies (exec cleanup_old_whispers two_days_later) ->
                r_whisper_id r <> 1)
  /\ (forall t fs,
        eval (get_whisper 1)
             (with_env t fs (exec cleanup_old_whispers two_days_later))
        = Failure 404 "Whisper not found").
Proof.
  assert (Hin : mkWhisper 1 "hello" "vent" false 1 0 ∈ whispers two_days_later)
    by (apply list_elem_of_singleton; reflexivity).
  assert (Hold : 0 <= cutoff two_days_later) by (vm_compute; discriminate).
  destruct (cascade_complete two_days_later
              (mkWhisper 1 "hello" "vent" false 1 0) eq_refl Hin Hold)
    as (Hreplies & _ & _ & Hlookup).
  split_and!; [reflexivity|exact Hin|exact Hold|exact Hreplies|].
  apply Hlookup. apply NoDup_singleton.
Defined.

(** C6, as stated, fails when a write of the sweep fails, since the sweep
    goes on whatever [save_data] returns.  In the scenario, 49 hours after
    the whisper: when [open] fails on the replies file and the whispers file
    is written, the whisper is dropped and the reply that references it
    stays; when the replies file is written and [open] fails on the whispers
    file, the expired whisper stays and is served by the lookup and by the
    listing. *)
Lemma cascade_broken_by_failed_write :
  let x := mkWhisper 1 "hello" "vent" false 1 0 in
  let replies_unwritable :=
    with_env (timedelta_hours 49) [OpenFailed; Written] after_hi in
  let whispers_unwritable :=
    with_env (timedelta_hours 49) [Written; OpenFailed] after_hi in
  whispers replies_unwritable = [x]
  /\ w_created_at x <= cutoff replies_unwritable
  /\ whispers (exec cleanup_old_whispers replies_unwritable) = []
  /\ replies (exec cleanup_old_whispers replies_unwritable)
     = [mkReply 1 (w_id x) "hi" 1000]
  /\ whispers whispers_unwritable = [x]
  /\ w_created_at x <= cutoff whispers_unwritable
  /\ eval (get_whisper 1) (exec cleanup_old_whispers whispers_unwritable)
     = Success x
  /\ eval (get_whispers None) whispers_unwritable = Success [x].
Proof. by split_and!. Qed.

(** ** Ordering of the listings *)

(** C7.  Whatever the files hold and whatever the topic filter, the listing of
    whispers is answered newest first (no record is created before one that
    follows it), and the replies of any whisper oldest first. *)
Theorem listings_ordered (w : World) (topic : option string) (id : Z) :
  (exists ws, eval (get_whispers topic) w = Success ws
              /\ StronglySorted
                   (fun a b => w_created_at b <= w_created_at a) ws)
  /\ (exists rs, eval (get_replies id) w = Success rs
                 /\ StronglySorted
                      (fun a b => r_created_at a <= r_created_at b) rs).
Proof.
  split.
  - unfold eval. rewrite get_whispers_run. simpl. eexists. split; [done|].
    apply (sort_by_key_sorted w_created_at true).
  - unfold get_replies. step_handler. eexists. split; [done|].
    apply (sort_by_key_sorted r_created_at false).
Qed.

(** ** Writes *)

Lemma save_data_run {A} (f : File A) (data : list A) (w : World) :
  save_data f data w
  = (match head (faults w) with
     | None | Some Written => true
     | _ => false
     end,
     exec (save_data f data) w).
Proof. unfold exec, save_data. by destruct (head (faults w)) as [[]|]. Qed.

Lemma save_whispers_found (data : list Whisper) (w : World) :
  whispers (exec (save_data WHISPERS_FILE data) w)
  = found_after (head (faults w)) (whispers w) data.
Proof.
  unfold exec, save_data, whispers. by destruct (head (faults w)) as [[]|].
Qed.

Lemma save_replies_found (data : list Reply) (w : World) :
  replies (exec (save_data REPLIES_FILE data) w)
  = found_after (head (faults w)) (replies w) data.
Proof.
  unfold exec, save_data, replies. by destruct (head (faults w)) as [[]|].
Qed.

Lemma save_data_env {A} (f : File A) (data : list A) (w : World) :
  faults (exec (save_data f data) w) = tail (faults w)
  /\ clock (exec (save_data f data) w) = clock w.
Proof.
  unfold exec, save_data.
  by destruct f, (head (faults w)) as [[]|].
Qed.

(** [create_whisper] rejects a body without content, or with the empty
    string, and touches nothing. *)
Lemma create_whisper_rejected (data : Body) (w : World) :
  truthy_content data = None ->
  create_whisper data w = (Failure 400 "Content is required", w).
Proof. unfold create_whisper. by intros ->. Qed.

(** A [create_whisper] call that answers with a whisper. *)
Lemma create_whisper_success (data : Body) (w : World) (x : Whisper) :
  eval (create_whisper data) w = Success x ->
  exists text,
    truthy_content data = Some text
    /\ x = mkWhisper (max_default 0 (w_id <$> whispers w) + 1) (strip text)
                     (default "random" (topic data))
                     (default false (is_sensitive data)) 0 (clock w)
    /\ whispers (exec (create_whisper data) w) = whispers w ++ [x]
    /\ replies (exec (create_whisper data) w) = replies w
    /\ faults (exec (create_whisper data) w) = tail (faults w).
Proof.
  unfold create_whisper.
  destruct (truthy_content data) as [text|]; [|done].
  step_handler. fold (whispers w). rewrite save_data_run. simpl.
  pose proof (save_whispers_found
                (whispers w ++
                 [mkWhisper (max_default 0 (w_id <$> whispers w) + 1)
                    (strip text) (default "random" (topic data))
                    (default false (is_sensitive data)) 0 (clock w)]) w) as Hs.
  pose proof (save_data_other_replies
                (whispers w ++
                 [mkWhisper (max_default 0 (w_id <$> whispers w) + 1)
                    (strip text) (default "random" (topic data))
                    (default false (is_sensitive data)) 0 (clock w)]) w) as Hr.
  pose proof (save_data_env WHISPERS_FILE
                (whispers w ++
                 [mkWhisper (max_default 0 (w_id <$> whispers w) + 1)
                    (strip text) (default "random" (topic data))
                    (default false (is_sensitive data)) 0 (clock w)]) w)
    as [Hf _].
  destruct (head (faults w)) as [[]|]; simpl; intros [= <-];
    exists text; by split_and!.
Qed.

(** ** Topics *)

Lemma gossip_not_a_topic : "gossip" ∉ ALL_TOPICS.
Proof. rewrite list_elem_of_In. simpl. intuition discriminate. Qed.

(** C8, as stated, fails: a topic outside the enumeration is stored as it
    came. *)
Lemma topic_outside_enumeration_stored :
  create_whisper (mkBody (Some "hello") (Some "gossip") None) (init_data 0)
  = (Success (mkWhisper 1 "hello" "gossip" false 0 0),
     mkWorld (Some [mkWhisper 1 "hello" "gossip" false 0 0]) (Some []) 0 []
             [whispers_json])
  /\ w_topic (mkWhisper 1 "hello" "gossip" false 0 0) ∉ ALL_TOPICS.
Proof. split; [reflexivity|apply gossip_not_a_topic]. Qed.

(** C8, amended.  The whisper a successful [create_whisper] stores carries the
    topic of the request as it came, and the catch-all ["random"] when the
    request names none; so it is one of the enumerated tags when the request
    names none or names one of them. *)
Theorem stored_topic (w : World) (data : Body) (x : Whisper) :
  eval (create_whisper data) w = Success x ->
  last (whispers (exec (create_whisper data) w)) = Some x
  /\ w_topic x = default "random" (topic data)
  /\ (topic data = None -> w_topic x = "random")
  /\ (forall t, topic data = Some t -> t ∈ ALL_TOPICS -> w_topic x ∈ ALL_TOPICS)
  /\ "random" ∈ ALL_TOPICS.
Proof.
  intros (text & _ & -> & Hw & _)%create_whisper_success.
  rewrite Hw, last_snoc. simpl. split_and!; try done.
  - by intros ->.
  - by intros t ->.
  - rewrite list_elem_of_In. simpl. tauto.
Qed.

Lemma stored_topic_witness :
  eval (create_whisper hello) (init_data 0)
  = Success (mkWhisper 1 "hello" "vent" false 0 0)
  /\ last (whispers (exec (create_whisper hello) (init_data 0)))
     = Some (mkWhisper 1 "hello" "vent" false 0 0)
  /\ w_topic (mkWhisper 1 "hello" "vent" false 0 0) = "vent".
Proof.
  split; [reflexivity|].
  destruct (stored_topic (init_data 0) hello
              (mkWhisper 1 "hello" "vent" false 0 0) eq_refl)
    as (Hlast & Htopic & _).
  split; [exact Hlast|exact Htopic].
Defined.

(** ** Validation of the content *)

(** C2 fails on content made of white space only: the check of the content
    comes before the stripping, so the request passes it, identifier 1 is
    consumed and a whisper with empty content is written. *)
Theorem blank_content_is_stored :
  truthy_content (mkBody (Some "   ") None None) = Some "   "
  /\ strip "   " = ""
  /\ create_whisper (mkBody (Some "   ") None None) (init_data 0)
     = (Success (mkWhisper 1 "" "random" false 0 0),
        mkWorld (Some [mkWhisper 1 "" "random" false 0 0]) (Some []) 0 []
                [whispers_json]).
Proof. by split_and!. Qed.

(** ** Reads that do not sweep *)

(** C1 fails for the lookup of one whisper and for the listing of replies:
    neither calls the sweep, and 49 hours after its creation the whisper of
    the scenario and its reply are still served. *)
Theorem unswept_reads_serve_expired :
  whispers two_days_later = [mkWhisper 1 "hello" "vent" false 1 0]
  /\ w_created_at (mkWhisper 1 "hello" "vent" false 1 0) <= cutoff two_days_later
  /\ eval (get_whisper 1) two_days_later
     = Success (mkWhisper 1 "hello" "vent" false 1 0)
  /\ eval (get_replies 1) two_days_later = Success [mkReply 1 1 "hi" 1000]
  /\ eval (get_whispers None) two_days_later = Success [].
Proof. by split_and!. Qed.

(** ** Identifiers of a run of creations *)

Lemma serve_all_cons {B A} (handler : B -> M (Response A)) (t : Z) (b : B)
      (rest : list (Z * B)) (w : World) :
  serve_all handler ((t, b) :: rest) w
  = (eval (at_time t (handler b)) w
       :: eval (serve_all handler rest) (exec (at_time t (handler b)) w),
     exec (serve_all handler rest) (exec (at_time t (handler b)) w)).
Proof.
  simpl. unfold bind, ret, eval, exec.
  destruct (at_time t (handler b) w) as [r w1]. simpl.
  by destruct (serve_all handler rest w1) as [rs w2].
Qed.

Lemma eval_at_time {A} (t : Z) (m : M A) (w : World) :
  eval (at_time t m) w = eval m (with_env t (faults w) w).
Proof. done. Qed.

Lemma exec_at_time {A} (t : Z) (m : M A) (w : World) :
  exec (at_time t m) w = exec m (with_env t (faults w) w).
Proof. done. Qed.

Lemma eval_serve_all_cons {B A} (handler : B -> M (Response A)) (t : Z) (b : B)
      (rest : list (Z * B)) (w : World) :
  eval (serve_all handler ((t, b) :: rest)) w
  = eval (handler b) (with_env t (faults w) w)
      :: eval (serve_all handler rest)
              (exec (handler b) (with_env t (faults w) w)).
Proof. unfold eval at 1. by rewrite serve_all_cons. Qed.

Lemma exec_serve_all_cons {B A} (handler : B -> M (Response A)) (t : Z) (b : B)
      (rest : list (Z * B)) (w : World) :
  exec (serve_all handler ((t, b) :: rest)) w
  = exec (serve_all handler rest) (exec (handler b) (with_env t (faults w) w)).
Proof. unfold exec at 1. by rewrite serve_all_cons. Qed.

Lemma exec_serve_all_nil {B A} (handler : B -> M (Response A)) (w : World) :
  exec (serve_all handler []) w = w.
Proof. done. Qed.

Lemma is_success_inv {A} (r : Response A) :
  is_success r -> exists d, r = Success d.
Proof. destruct r; [eauto|done]. Qed.

Lemma sequential_ids_from (calls : list (Z * Body)) (w : World) (k : nat) :
  w_id <$> whispers w = seqZ 1 (Z.of_nat k) ->
  Forall is_success (eval (serve_all create_whisper calls) w) ->
  assigned_id <$> eval (serve_all create_whisper calls) w
  = Some <$> seqZ (1 + Z.of_nat k) (Z.of_nat (length calls)).
Proof.
  revert w k. induction calls as [|[t b] rest IH]; intros w k Hids; [done|].
  rewrite eval_serve_all_cons.
  intros [Hr Hrest]%Forall_cons.
  apply is_success_inv in Hr as [x Hx]. rewrite Hx.
  destruct (create_whisper_success _ _ _ Hx) as (text & _ & Hid & Hws & _).
  assert (Hxid : w_id x = 1 + Z.of_nat k).
  { rewrite Hid. simpl. unfold whispers at 1. simpl. fold (whispers w).
    rewrite Hids, max_default_seqZ. lia. }
  rewrite fmap_cons. unfold assigned_id at 1. simpl. rewrite Hxid.
  rewrite (IH _ (S k)); [|clear IH|done].
  - change (length ((t, b) :: rest)) with (S (length rest)).
    rewrite (seqZ_cons _ (Z.of_nat (S _))) by lia. rewrite fmap_cons.
    do 3 f_equal; lia.
  - rewrite Hws. unfold whispers at 1. simpl. fold (whispers w).
    rewrite fmap_app, Hids, seqZ_S. simpl. by rewrite Hxid.
Qed.

(** C3.  Starting from an empty collection, when every one of N
    [create_whisper] calls served one after the other answers with a whisper,
    the identifiers answered are 1, 2, ..., N in the order of the calls. *)
Theorem sequential_ids (calls : list (Z * Body)) (w : World) :
  whispers w = [] ->
  Forall is_success (eval (serve_all create_whisper calls) w) ->
  assigned_id <$> eval (serve_all create_whisper calls) w
  = Some <$> seqZ 1 (Z.of_nat (length calls)).
Proof.
  intros Hw Hok. apply (sequential_ids_from calls w 0); [|done].
  by rewrite Hw.
Qed.

Lemma sequential_ids_witness :
  whispers (init_data 0) = []
  /\ assigned_id <$> eval (serve_all create_whisper
                             [(0, hello); (5, hi); (9, hello)]) (init_data 0)
     = [Some 1; Some 2; Some 3].
Proof.
  split; [reflexivity|].
  apply (sequential_ids [(0, hello); (5, hi); (9, hello)] (init_data 0)).
  - reflexivity.
  - repeat constructor.
Defined.

(** ** Replies *)

Lemma keep_answer {A B} (m : M B) (a : A) (w : World) :
  (let (_, w') := m w in (a, w')) = (a, exec m w).
Proof. unfold exec. by destruct (m w). Qed.

(** A [create_reply] call that passes validation and finds its whisper, step
    by step. *)
Lemma create_reply_run (id : Z) (data : Body) (w : World)
      (text : string) (i : nat) (p : Whisper) :
  truthy_content data = Some text ->
  list_find (fun x => w_id x = id) (whispers w) = Some (i, p) ->
  let r := mkReply (max_default 0 (r_id <$> replies w) + 1) id (strip text)
                   (clock w) in
  let w1 := exec (save_data REPLIES_FILE (replies w ++ [r])) w in
  create_reply id data w
  = match head (faults w) with
    | None | Some Written =>
        (Success r,
         exec (save_data WHISPERS_FILE
                 (<[i := set_replies_count
                           (references id (replies w ++ [r])) p]>
                    (whispers w))) w1)
    | _ => (Failure 500 "Failed to save reply", w1)
    end.
Proof.
  intros Ht Hp r w1. unfold create_reply. rewrite Ht.
  step_handler. fold (whispers w) (replies w). rewrite Hp. simpl.
  fold r. rewrite save_data_run. fold w1. simpl.
  destruct (head (faults w)) as [[]|]; simpl; try done;
    exact (keep_answer _ _ _).
Qed.

Lemma create_reply_success (id : Z) (data : Body) (w : World) (r : Reply) :
  eval (create_reply id data) w = Success r ->
  exists text i p,
    truthy_content data = Some text
    /\ list_find (fun x => w_id x = id) (whispers w) = Some (i, p)
    /\ r = mkReply (max_default 0 (r_id <$> replies w) + 1) id (strip text)
                   (clock w)
    /\ replies (exec (create_reply id data) w) = replies w ++ [r]
    /\ whispers (exec (create_reply id data) w)
       = found_after (head (tail (faults w))) (whispers w)
           (<[i := set_replies_count (references id (replies w ++ [r])) p]>
              (whispers w))
    /\ faults (exec (create_reply id data) w) = tail (tail (faults w)).
Proof.
  destruct (truthy_content data) as [text|] eqn:Ht;
    [|by unfold eval, create_reply; rewrite Ht].
  destruct (list_find (fun x => w_id x = id) (whispers w)) as [[i p]|] eqn:Hp.
  2:{ unfold eval, create_reply. rewrite Ht. step_handler.
      fold (whispers w). by rewrite Hp. }
  unfold eval, exec. rewrite (create_reply_run id data w text i p Ht Hp).
  set (r0 := mkReply _ _ _ _).
  pose proof (save_replies_found (replies w ++ [r0]) w) as Hrs.
  pose proof (save_data_other_whispers (replies w ++ [r0]) w) as Hws.
  pose proof (save_data_env REPLIES_FILE (replies w ++ [r0]) w) as [Hf _].
  set (w1 := exec (save_data REPLIES_FILE (replies w ++ [r0])) w) in *.
  set (ws := <[i := _]> (whispers w)).
  pose proof (save_whispers_found ws w1) as Hws'.
  pose proof (save_data_other_replies ws w1) as Hrs'.
  pose proof (save_data_env WHISPERS_FILE ws w1) as [Hf' _].
  rewrite Hf in Hws', Hf'. rewrite Hws in Hws'. rewrite Hrs in Hrs'.
  destruct (head (faults w)) as [[]|]; simpl; intros [= <-];
    exists text, i, p; by split_and!.
Qed.

(** The element that [create_reply] updates is the one a lookup finds. *)
Lemma get_whisper_updated (id : Z) (ws : list Whisper) (i : nat)
      (p : Whisper) (n : Z) :
  list_find (fun x => w_id x = id) ws = Some (i, p) ->
  list_find (fun x => w_id x = id) (<[i := set_replies_count n p]> ws)
  = Some (i, set_replies_count n p).
Proof.
  intros (Hi & Hid & Hleast)%list_find_Some. apply list_find_Some.
  split_and!.
  - apply list_lookup_insert_eq. by eapply lookup_lt_Some.
  - done.
  - intros j y Hj Hlt. rewrite list_lookup_insert_ne in Hj by lia. eauto.
Qed.

Lemma get_whisper_found (id : Z) (w : World) (i : nat) (p : Whisper) :
  list_find (fun x => w_id x = id) (whispers w) = Some (i, p) ->
  eval (get_whisper id) w = Success p.
Proof.
  intros H. unfold get_whisper. step_handler. fold (whispers w).
  by rewrite H.
Qed.

(** One successful [create_reply] whose two writes go through leaves the
    counter of its whisper equal to the number of replies that reference
    it. *)
Lemma create_reply_counts (id : Z) (data : Body) (w : World) (r : Reply) :
  faults w = [] ->
  eval (create_reply id data) w = Success r ->
  exists x,
    eval (get_whisper id) (exec (create_reply id data) w) = Success x
    /\ w_replies_count x
       = references id (replies (exec (create_reply id data) w)).
Proof.
  intros Hf (text & i & p & _ & Hp & _ & Hrs & Hws & _)%create_reply_success.
  rewrite Hf in Hws. simpl in Hws.
  eexists. split.
  - eapply get_whisper_found. rewrite Hws. by apply get_whisper_updated.
  - by rewrite Hrs.
Qed.

(** C9.  After any run of [create_reply] calls against one whisper that all
    answer with a reply and whose writes all go through, the whisper a lookup
    of that id finds has a [replies_count] equal to the number of replies in
    the file that reference the id; the handler obtains it by counting the
    replies, not by adding one. *)
Theorem replies_count_consistent (id : Z) (calls : list (Z * Body))
        (w : World) :
  faults w = [] -> calls <> [] ->
  Forall is_success (eval (serve_all (create_reply id) calls) w) ->
  let w' := exec (serve_all (create_reply id) calls) w in
  exists x,
    eval (get_whisper id) w' = Success x
    /\ w_replies_count x = references id (replies w').
Proof.
  revert w. induction calls as [|[t b] rest IH]; intros w Hf Hne; [done|].
  rewrite eval_serve_all_cons, exec_serve_all_cons.
  intros [[r Hr]%is_success_inv Hrest]%Forall_cons.
  destruct rest as [|c rest].
  - rewrite exec_serve_all_nil. simpl.
    by eapply create_reply_counts.
  - apply IH; [|done|done].
    apply create_reply_success in Hr as (_ & _ & _ & _ & _ & _ & _ & _ & ->).
    simpl. by rewrite Hf.
Qed.

Lemma replies_count_consistent_witness :
  faults after_hello = []
  /\ exists x,
       eval (get_whisper 1)
            (exec (serve_all (create_reply 1) [(10, hi); (20, hello)])
                  after_hello)
       = Success x
       /\ w_replies_count x
          = references 1
              (replies (exec (serve_all (create_reply 1)
                                        [(10, hi); (20, hello)])
                             after_hello)).
Proof.
  split; [reflexivity|].
  apply (replies_count_consistent 1 [(10, hi); (20, hello)] after_hello).
  - reflexivity.
  - discriminate.
  - repeat constructor.
Defined.

(** C10, as stated, fails where the counter was already above the number of
    replies, as it is after a sweep that wrote the replies file and could not
    write the whispers file.  With the whispers file unwritable, 49 hours
    after the whisper of the scenario: the sweep deletes the reply and leaves
    the whisper with its counter at 1; the reply created next is answered
    with success, and the counter, still 1, is not smaller than the number of
    replies, 1. *)
Lemma stale_counter_not_smaller :
  let w :=
    with_env (timedelta_hours 49) [Written; OpenFailed]
      (exec cleanup_old_whispers
         (with_env (timedelta_hours 49) [Written; OpenFailed] after_hi)) in
  let w' := exec (create_reply 1 hello) w in
  eval (create_reply 1 hello) w
  = Success (mkReply 1 1 "hello" (timedelta_hours 49))
  /\ replies w' = [mkReply 1 1 "hello" (timedelta_hours 49)]
  /\ eval (get_whisper 1) w' = Success (mkWhisper 1 "hello" "vent" false 1 0)
  /\ references 1 (replies w') = 1
  /\ ~ w_replies_count (mkWhisper 1 "hello" "vent" false 1 0)
       < references 1 (replies w').
Proof. by split_and!. Qed.

(** C10, amended.  Once validation has passed and the whisper is found,
    whether [create_reply] answers with the reply is decided by the write of
    the replies file alone.  When that write goes through and the write of
    the whispers file that follows does not, the answer is still the reply:
    the replies file has one more reply that references the whisper, while
    the whispers file is as it was ([open] failed), so that a lookup finds
    the whisper with its old counter, or is unreadable (the dump failed), so
    that a lookup finds nothing.  The counter that is found is smaller than
    the number of replies that reference the whisper whenever it was not
    above that number before the call. *)
Theorem reply_success_ignores_counter_save (id : Z) (data : Body) (w : World)
        (text : string) (i : nat) (p : Whisper) :
  truthy_content data = Some text ->
  list_find (fun x => w_id x = id) (whispers w) = Some (i, p) ->
  (is_success (eval (create_reply id data) w)
   <-> head (faults w) = None \/ head (faults w) = Some Written)
  /\ (forall o rest,
        faults w = Written :: o :: rest -> o <> Written ->
        let w' := exec (create_reply id data) w in
        exists r,
          eval (create_reply id data) w = Success r
          /\ replies w' = replies w ++ [r]
          /\ references id (replies w') = references id (replies w) + 1
          /\ whispers w' = match o with OpenFailed => whispers w | _ => [] end
          /\ (o = OpenFailed -> eval (get_whisper id) w' = Success p)
          /\ (o = DumpFailed ->
              eval (get_whisper id) w' = Failure 404 "Whisper not found")
          /\ (w_replies_count p <= references id (replies w) ->
              forall q, eval (get_whisper id) w' = Success q ->
                        w_replies_count q < references id (replies w'))).
Proof.
  intros Ht Hp. split.
  - unfold eval. rewrite (create_reply_run id data w text i p Ht Hp).
    destruct (head (faults w)) as [[]|]; simpl;
      (split; [by auto|done]) || (split; [done|by intros [?|?]]).
  - intros o rest Hf Ho w'.
    assert (Hrefs : forall r, r_whisper_id r = id ->
              references id (replies w ++ [r]) = references id (replies w) + 1).
    { intros r Hr. unfold references.
      rewrite filter_app, filter_cons_True, length_app by done. simpl. lia. }
    destruct (eval (create_reply id data) w) as [r|] eqn:Hr.
    2:{ unfold eval in Hr.
        rewrite (create_reply_run id data w text i p Ht Hp), Hf in Hr.
        done. }
    destruct (create_reply_success _ _ _ _ Hr)
      as (text' & i' & p' & _ & Hp' & Hr' & Hrs & Hws & _).
    rewrite Hp in Hp'. injection Hp' as <- <-.
    rewrite Hf in Hws. simpl in Hws. fold w' in Hrs, Hws.
    assert (Hrid : r_whisper_id r = id) by by rewrite Hr'.
    assert (Hopen : o = OpenFailed -> eval (get_whisper id) w' = Success p).
    { intros ->. eapply get_whisper_found. by rewrite Hws. }
    assert (Hdump : o = DumpFailed ->
              eval (get_whisper id) w' = Failure 404 "Whisper not found").
    { intros ->. apply get_whisper_missing. rewrite Hws.
      by intros y ?%elem_of_nil. }
    exists r. rewrite Hrs, (Hrefs r Hrid). split_and!; try done.
    + rewrite Hws. by destruct o.
    + intros Hcount q Hq. destruct o; [done| |].
      * rewrite Hopen in Hq by done. injection Hq as <-. lia.
      * by rewrite Hdump in Hq.
Qed.

Lemma reply_success_ignores_counter_save_witness :
  let w := with_env 1000 [Written; OpenFailed] after_hello in
  let w' := exec (create_reply 1 hi) w in
  truthy_content hi = Some "hi"
  /\ list_find (fun x => w_id x = 1) (whispers w)
     = Some (0%nat, mkWhisper 1 "hello" "vent" false 0 0)
  /\ exists r,
       eval (create_reply 1 hi) w = Success r
       /\ replies w' = replies w ++ [r]
       /\ references 1 (replies w') = references 1 (replies w) + 1
       /\ whispers w' = whispers w
       /\ eval (get_whisper 1) w' = Success (mkWhisper 1 "hello" "vent" false 0 0)
       /\ (forall q, eval (get_whisper 1) w' = Success q ->
                     w_replies_count q < references 1 (replies w')).
Proof.
  intros w w'. split; [reflexivity|]. split; [reflexivity|].
  destruct (proj2 (reply_success_ignores_counter_save 1 hi w "hi" 0%nat
                     (mkWhisper 1 "hello" "vent" false 0 0) eq_refl eq_refl)
                  OpenFailed [] eq_refl)
    as (r & Hr & Hrs & Hrefs & Hws & Hopen & _ & Hless); [discriminate|].
  exists r. split_and!; [exact Hr|exact Hrs|exact Hrefs|exact Hws| |].
  - by apply Hopen.
  - apply Hless. vm_compute. discriminate.
Defined.

(** ** Identifier allocation *)

(** C4, as stated, fails: the identifiers of deleted records are forgotten.
    Whisper 1 and reply 1 of the scenario are swept by the listing served 49
    hours later, and the next whisper and the next reply are numbered 1
    again. *)
Lemma identifier_reused_after_sweep :
  let swept := exec (get_whispers None) two_days_later in
  let again := exec (create_whisper hi) swept in
  eval (create_whisper hello) (init_data 0)
  = Success (mkWhisper 1 "hello" "vent" false 0 0)
  /\ eval (at_time 1000 (create_reply 1 hi)) after_hello
     = Success (mkReply 1 1 "hi" 1000)
  /\ whispers swept = [] /\ replies swept = []
  /\ eval (create_whisper hi) swept
     = Success (mkWhisper 1 "hi" "random" false 0 (timedelta_hours 49))
  /\ eval (create_reply 1 hello) again
     = Success (mkReply 1 1 "hello" (timedelta_hours 49)).
Proof. by split_and!. Qed.

Lemma create_whisper_run (data : Body) (w : World) (text : string) :
  truthy_content data = Some text ->
  let x := mkWhisper (max_default 0 (w_id <$> whispers w) + 1) (strip text)
                     (default "random" (topic data))
                     (default false (is_sensitive data)) 0 (clock w) in
  create_whisper data w
  = (match head (faults w) with
     | None | Some Written => Success x
     | _ => Failure 500 "Failed to save whisper"
     end,
     exec (save_data WHISPERS_FILE (whispers w ++ [x])) w).
Proof.
  intros Ht x. unfold create_whisper. rewrite Ht. step_handler.
  fold (whispers w). fold x. rewrite save_data_run. simpl.
  by destruct (head (faults w)) as [[]|].
Qed.

Lemma found_after_NoDup {A B} (f : A -> B) (o : option SaveOutcome)
      (old new : list A) :
  NoDup (f <$> old) -> NoDup (f <$> new) ->
  NoDup (f <$> found_after o old new).
Proof. destruct o as [[]|]; simpl; auto. intros. constructor. Qed.

Lemma next_id_NoDup (l : list Z) :
  NoDup l -> NoDup (l ++ [max_default 0 l + 1]).
Proof.
  intros Hl. apply NoDup_app. split_and!; [done| |apply NoDup_singleton].
  intros y Hy%next_id_fresh ->%list_elem_of_singleton. lia.
Qed.

Lemma cleanup_distinct_ids (w : World) :
  distinct_ids w -> distinct_ids (exec cleanup_old_whispers w).
Proof.
  intros [Hw Hr]. unfold exec. rewrite cleanup_run. simpl.
  destruct (expired w) as [|x l]; [done|]. split.
  - rewrite save_whispers_found, save_data_other_whispers.
    apply found_after_NoDup; [done|].
    eapply sublist_NoDup; [exact Hw|]. apply fmap_sublist, sublist_filter.
  - rewrite save_data_other_replies, save_replies_found.
    apply found_after_NoDup; [done|].
    eapply sublist_NoDup; [exact Hr|]. apply fmap_sublist, sublist_filter.
Qed.

Lemma create_whisper_distinct_ids (data : Body) (w : World) :
  distinct_ids w -> distinct_ids (exec (create_whisper data) w).
Proof.
  intros [Hw Hr]. unfold exec.
  destruct (truthy_content data) as [text|] eqn:Ht.
  - rewrite (create_whisper_run data w text Ht). simpl. split.
    + rewrite save_whispers_found. apply found_after_NoDup; [done|].
      rewrite fmap_app. simpl. by apply next_id_NoDup.
    + by rewrite save_data_other_replies.
  - by rewrite create_whisper_rejected.
Qed.

Lemma create_reply_distinct_ids (id : Z) (data : Body) (w : World) :
  distinct_ids w -> distinct_ids (exec (create_reply id data) w).
Proof.
  intros [Hw Hr]. unfold exec.
  destruct (truthy_content data) as [text|] eqn:Ht;
    [|by unfold create_reply; rewrite Ht].
  destruct (list_find (fun x => w_id x = id) (whispers w)) as [[i p]|] eqn:Hp.
  2:{ unfold create_reply. rewrite Ht. step_handler.
      fold (whispers w). by rewrite Hp. }
  rewrite (create_reply_run id data w text i p Ht Hp).
  set (r := mkReply _ _ _ _).
  assert (Hrs : NoDup (r_id <$> found_after (head (faults w)) (replies w)
                                             (replies w ++ [r]))).
  { apply found_after_NoDup; [done|].
    rewrite fmap_app. simpl. by apply next_id_NoDup. }
  assert (Hids : w_id <$> <[i := set_replies_count
                                   (references id (replies w ++ [r])) p]>
                            (whispers w) = w_id <$> whispers w).
  { rewrite list_fmap_insert. apply list_insert_id.
    apply list_find_Some in Hp as (Hi & _ & _).
    by rewrite list_lookup_fmap, Hi. }
  destruct (head (faults w)) as [[]|] eqn:Hh; simpl; split;
    rewrite ?save_whispers_found, ?save_data_other_whispers,
      ?save_data_other_replies, ?save_replies_found, ?Hh; try done;
    apply found_after_NoDup; try done; by rewrite Hids.
Qed.

(** Every request keeps the identifiers of each file distinct, whenever it is
    served and whatever happens to its writes. *)
Lemma after_distinct_ids (rq : Request) (w : World) :
  distinct_ids w -> distinct_ids (after rq w).
Proof.
  destruct rq as [topic|id|data|id|id data]; simpl.
  - unfold exec. rewrite get_whispers_run. apply cleanup_distinct_ids.
  - unfold get_whisper, exec. step_handler. by destruct (list_find _ _) as [[]|].
  - apply create_whisper_distinct_ids.
  - done.
  - apply create_reply_distinct_ids.
Qed.

(** C4, amended.  In each file the identifier of a new record is one more than
    the largest identifier in the file, and 1 when the file is empty; it is
    above every identifier the file holds at that moment, so identifiers that
    are distinct stay distinct under every request, sweeps included.  Nothing
    is said of the identifiers of records no longer in the file. *)
Theorem next_id_policy (w : World) :
  (forall data x,
      eval (create_whisper data) w = Success x ->
      w_id x = max_default 0 (w_id <$> whispers w) + 1
      /\ (whispers w = [] -> w_id x = 1)
      /\ (forall y, y ∈ whispers w -> w_id y < w_id x))
  /\ (forall id data r,
        eval (create_reply id data) w = Success r ->
        r_id r = max_default 0 (r_id <$> replies w) + 1
        /\ (replies w = [] -> r_id r = 1)
        /\ (forall y, y ∈ replies w -> r_id y < r_id r))
  /\ (distinct_ids w -> forall rq, distinct_ids (after rq w)).
Proof.
  split_and!.
  - intros data x (text & _ & -> & _)%create_whisper_success. simpl.
    split_and!; [done|by intros ->|].
    intros y Hy. apply next_id_fresh. by apply list_elem_of_fmap_2.
  - intros id data r (text & i & p & _ & _ & -> & _)%create_reply_success.
    simpl. split_and!; [done|by intros ->|].
    intros y Hy. apply next_id_fresh. by apply list_elem_of_fmap_2.
  - intros Hd rq. by apply after_distinct_ids.
Qed.

Lemma next_id_policy_witness :
  distinct_ids two_days_later
  /\ distinct_ids (after (CreateReply 1 hello) two_days_later).
Proof.
  assert (H : distinct_ids two_days_later)
    by (split; simpl; apply NoDup_singleton).
  split; [exact H|].
  exact (proj2 (proj2 (next_id_policy two_days_later)) H (CreateReply 1 hello)).
Defined.

(** ** Consistency of the store *)

Lemma references_filter (k : Z) (P : Reply -> Prop)
      `{forall r, Decision (P r)} (rs : list Reply) :
  (forall r, r ∈ rs -> r_whisper_id r = k -> P r) ->
  references k (filter P rs) = references k rs.
Proof.
  intros HP. unfold references. f_equal. f_equal.
  induction rs as [|r rs IH]; [done|].
  rewrite !filter_cons.
  assert (IH' : filter (fun r => r_whisper_id r = k) (filter P rs)
                = filter (fun r => r_whisper_id r = k) rs).
  { apply IH. intros r' Hr'. apply HP. by right. }
  destruct (decide (P r)) as [Hr|Hr].
  - rewrite filter_cons. by rewrite IH'.
  - rewrite IH'. rewrite decide_False; [done|].
    intros Hk. apply Hr, HP; [left|done].
Qed.

Lemma references_none (k : Z) (rs : list Reply) :
  (forall r, r ∈ rs -> r_whisper_id r <> k) -> references k rs = 0.
Proof.
  intros H. unfold references.
  replace (filter (fun r => r_whisper_id r = k) rs) with (@nil Reply); [done|].
  symmetry. induction rs as [|r rs IH]; [done|].
  rewrite filter_cons_False by (apply H; left).
  apply IH. intros r' Hr'. apply H. by right.
Qed.

Lemma references_snoc (k : Z) (rs : list Reply) (r : Reply) :
  references k (rs ++ [r])
  = references k rs + (if decide (r_whisper_id r = k) then 1 else 0).
Proof.
  unfold references. rewrite filter_app, length_app, filter_cons, filter_nil.
  destruct (decide (r_whisper_id r = k)); simpl; lia.
Qed.

Lemma cleanup_consistent (w : World) :
  faults w = [] -> consistent w -> consistent (exec cleanup_old_whispers w).
Proof.
  intros Hf (Hd & Horph & Hcount).
  destruct (decide (expired w = [])) as [He|He].
  { unfold exec. by rewrite cleanup_noop. }
  split; [by apply cleanup_distinct_ids|].
  rewrite cleanup_written by done. unfold whispers, replies. simpl.
  fold (whispers w) (replies w).
  assert (Hsplit : forall x, x ∈ whispers w -> x ∈ kept w \/ x ∈ expired w).
  { intros x Hx. unfold kept, expired. rewrite !list_elem_of_filter.
    destruct (decide (cutoff w < w_created_at x)); auto. }
  assert (Hkept : forall x, x ∈ kept w -> w_id x ∉ (w_id <$> expired w)).
  { intros x [Hfresh Hx]%list_elem_of_filter
           (y & E & [Hold Hy]%list_elem_of_filter)%list_elem_of_fmap.
    destruct Hd as [Hd _].
    by rewrite (fmap_NoDup_inj w_id (whispers w) x y Hd Hx Hy E) in Hfresh. }
  split.
  - intros r [Hr Hin]%list_elem_of_filter.
    pose proof (Horph r Hin) as (x & E & Hx)%list_elem_of_fmap.
    apply list_elem_of_fmap. exists x. split; [done|].
    destruct (Hsplit x Hx) as [?|Hexp]; [done|].
    destruct Hr. rewrite E. by apply list_elem_of_fmap_2.
  - intros x Hx. pose proof Hx as [_ Hx']%list_elem_of_filter.
    rewrite (Hcount x Hx'). symmetry. apply references_filter.
    intros r _ ->. by apply Hkept.
Qed.

Lemma create_whisper_consistent (data : Body) (w : World) :
  faults w = [] -> consistent w -> consistent (exec (create_whisper data) w).
Proof.
  intros Hf (Hd & Horph & Hcount).
  split; [by apply create_whisper_distinct_ids|].
  destruct (truthy_content data) as [text|] eqn:Ht;
    [|unfold exec; by rewrite create_whisper_rejected].
  unfold exec. rewrite (create_whisper_run data w text Ht). simpl.
  rewrite save_whispers_found, save_data_other_replies, Hf. simpl.
  split.
  - intros r Hr. rewrite fmap_app, elem_of_app. left. by apply Horph.
  - intros x [Hx| ->%list_elem_of_singleton]%elem_of_app; [by apply Hcount|].
    simpl. symmetry. apply references_none. intros r Hr E.
    apply Horph, next_id_fresh in Hr. lia.
Qed.

Lemma create_reply_consistent (id : Z) (data : Body) (w : World) :
  faults w = [] -> consistent w -> consistent (exec (create_reply id data) w).
Proof.
  intros Hf (Hd & Horph & Hcount).
  split; [by apply create_reply_distinct_ids|].
  destruct (eval (create_reply id data) w) as [r|status error] eqn:Hr.
  - destruct (create_reply_success _ _ _ _ Hr)
      as (text & i & p & _ & Hp & Hr' & -> & -> & _).
    rewrite Hf. simpl.
    pose proof Hp as (Hi & Hid & _)%list_find_Some.
    assert (Hrid : r_whisper_id r = id) by by rewrite Hr'.
    split.
    + intros r0 Hr0. rewrite list_fmap_insert. simpl.
      rewrite list_insert_id by by rewrite list_lookup_fmap, Hi.
      apply elem_of_app in Hr0 as [?| ->%list_elem_of_singleton]; [eauto|].
      rewrite Hrid, <- Hid. apply list_elem_of_fmap_2.
      by eapply list_elem_of_lookup_2.
    + intros x (j & Hj)%list_elem_of_lookup_1.
      destruct (decide (i = j)) as [<-|Hij].
      * rewrite list_lookup_insert_eq in Hj by by eapply lookup_lt_Some.
        injection Hj as <-. simpl. by rewrite Hid.
      * rewrite list_lookup_insert_ne in Hj by done.
        rewrite references_snoc, decide_False.
        { rewrite Z.add_0_r. apply Hcount. by eapply list_elem_of_lookup_2. }
        rewrite Hrid, <- Hid. intros E. apply Hij.
        destruct Hd as [Hd _]. eapply NoDup_lookup; [exact Hd| |].
        -- by rewrite list_lookup_fmap, Hi.
        -- by rewrite list_lookup_fmap, Hj, E.
  - assert (Hsame : exec (create_reply id data) w = w); [|by rewrite Hsame].
    unfold exec. unfold eval in Hr.
    destruct (truthy_content data) as [text|] eqn:Ht;
      [|by unfold create_reply; rewrite Ht].
    destruct (list_find (fun x => w_id x = id) (whispers w))
      as [[i p]|] eqn:Hp.
    + rewrite (create_reply_run id data w text i p Ht Hp), Hf in Hr. done.
    + unfold create_reply. rewrite Ht. step_handler.
      fold (whispers w). by rewrite Hp.
Qed.

(** With every write going through, each request keeps the store
    consistent. *)
Lemma after_consistent (rq : Request) (w : World) :
  faults w = [] -> consistent w -> consistent (after rq w).
Proof.
  intros Hf Hc. destruct rq as [topic|id|data|id|id data]; simpl.
  - unfold exec. rewrite get_whispers_run. by apply cleanup_consistent.
  - unfold get_whisper, exec. step_handler. by destruct (list_find _ _) as [[]|].
  - by apply create_whisper_consistent.
  - done.
  - by apply create_reply_consistent.
Qed.

(** In every world reached while writes go through, the counter of every
    whisper is the number of its replies and no reply is an orphan. *)
Lemma reachable_consistent (w : World) : reachable w -> consistent w.
Proof.
  induction 1 as [t|w t rq _ IH].
  - repeat split; simpl; try constructor; by intros ? ?%elem_of_nil.
  - by apply after_consistent.
Qed.

(** ** The scenario, end to end *)

(** The first scenario of the specification: the whisper, its reply and the
    counter of the whisper; then, 49 hours later, the listing, the replies
    once the listing has swept, and a reply to the whisper that is gone. *)
Example scenario :
  eval (create_whisper hello) (init_data 0)
  = Success (mkWhisper 1 "hello" "vent" false 0 0)
  /\ eval (at_time 1000 (create_reply 1 hi)) after_hello
     = Success (mkReply 1 1 "hi" 1000)
  /\ eval (get_whisper 1) after_hi
     = Success (mkWhisper 1 "hello" "vent" false 1 0)
  /\ eval (get_whispers None) two_days_later = Success []
  /\ eval (get_replies 1) (exec (get_whispers None) two_days_later)
     = Success []
  /\ eval (create_reply 1 hi) (exec (get_whispers None) two_days_later)
     = Failure 404 "Whisper not found".
Proof. by split_and!. Qed.

(** X19.  The listing of whispers does sweep: with its writes going through,
    it answers with no whisper created at or before the cutoff, 48 hours
    before the instant of the request. *)
Lemma get_whispers_fresh (w : World) (topic : option string)
      (ws : list Whisper) (y : Whisper) :
  faults w = [] ->
  eval (get_whispers topic) w = Success ws -> y ∈ ws ->
  cutoff w < w_created_at y.
Proof.
  intros Hf Hws Hy. eapply get_whispers_elem in Hy; [|exact Hws].
  destruct (decide (expired w = [])) as [He|He].
  - unfold exec in Hy. rewrite cleanup_noop in Hy by done.
    apply expired_nil_iff in He. by eapply Forall_forall in He.
  - rewrite cleanup_written in Hy by done.
    by apply list_elem_of_filter in Hy as [? _].
Qed.

(** * The rest of the store *)

(** ** More on the sweep *)

Lemma filter_ext_in {A} (P Q : A -> Prop) `{forall x, Decision (P x)}
      `{forall x, Decision (Q x)} (l : list A) :
  (forall x, x ∈ l -> P x <-> Q x) -> filter P l = filter Q l.
Proof.
  induction l as [|x l IH]; intros HPQ; [done|].
  rewrite !filter_cons, IH by (intros y Hy; apply HPQ; by right).
  destruct (decide (P x)) as [HP|HP], (decide (Q x)) as [HQ|HQ]; try done.
  - destruct HQ. apply HPQ; [left|done].
  - destruct HP. apply HPQ; [left|done].
Qed.

Lemma filter_all {A} (P : A -> Prop) `{forall x, Decision (P x)} (l : list A) :
  (forall x, x ∈ l -> P x) -> filter P l = l.
Proof.
  induction l as [|x l IH]; intros HP; [done|].
  rewrite filter_cons_True by (apply HP; left).
  rewrite IH; [done|]. intros y Hy. apply HP. by right.
Qed.

(** The two files after a sweep whose writes go through, whether or not
    anything was expired. *)
Lemma cleanup_files (w : World) :
  faults w = [] ->
  whispers (exec cleanup_old_whispers w) = kept w
  /\ replies (exec cleanup_old_whispers w)
     = filter (fun r => r_whisper_id r ∉ deleted_ids w) (replies w)
  /\ clock (exec cleanup_old_whispers w) = clock w
  /\ faults (exec cleanup_old_whispers w) = [].
Proof.
  intros Hf. unfold deleted_ids.
  destruct (decide (expired w = [])) as [He|He].
  - unfold exec. rewrite cleanup_noop by done. simpl. rewrite He.
    split_and!; try done.
    + unfold kept. symmetry. apply filter_all.
      apply expired_nil_iff in He. by apply Forall_forall.
    + symmetry. apply filter_all. intros r _. apply not_elem_of_nil.
  - by rewrite cleanup_written.
Qed.

(** X2.  A sweep whose writes go through deletes nothing it should keep: a
    whisper created after the cutoff is still in the file, in the same
    order as before, and when identifiers are distinct every reply to it is
    still in the file as well. *)
Theorem sweep_keeps_fresh (w : World) (x : Whisper) :
  faults w = [] -> x ∈ whispers w -> cutoff w < w_created_at x ->
  let w' := exec cleanup_old_whispers w in
  x ∈ whispers w'
  /\ whispers w' `sublist_of` whispers w
  /\ replies w' `sublist_of` replies w
  /\ (NoDup (w_id <$> whispers w) ->
      forall r, r ∈ replies w -> r_whisper_id r = w_id x -> r ∈ replies w').
Proof.
  intros Hf Hx Hfresh w'. subst w'.
  destruct (cleanup_files w Hf) as (-> & -> & _).
  split_and!.
  - by apply list_elem_of_filter.
  - apply sublist_filter.
  - apply sublist_filter.
  - intros Hnd r Hr E. apply list_elem_of_filter. split; [|done].
    intros (y & Ey & [Hold Hy]%list_elem_of_filter)%list_elem_of_fmap.
    rewrite E in Ey.
    by rewrite (fmap_NoDup_inj w_id (whispers w) x y Hnd Hx Hy Ey) in Hfresh.
Qed.

Lemma sweep_keeps_fresh_witness :
  let w := with_env (timedelta_hours 47) [] after_hi in
  faults w = []
  /\ mkWhisper 1 "hello" "vent" false 1 0 ∈ whispers (exec cleanup_old_whispers w)
  /\ (forall r, r ∈ replies w -> r_whisper_id r = 1 ->
                r ∈ replies (exec cleanup_old_whispers w)).
Proof.
  intros w.
  assert (Hin : mkWhisper 1 "hello" "vent" false 1 0 ∈ whispers w)
    by (apply list_elem_of_singleton; reflexivity).
  assert (Hfresh : cutoff w < 0) by (vm_compute; reflexivity).
  destruct (sweep_keeps_fresh w (mkWhisper 1 "hello" "vent" false 1 0)
              eq_refl Hin Hfresh) as (Hkept & _ & _ & Hreplies).
  split_and!; [reflexivity|exact Hkept|].
  apply Hreplies. apply NoDup_singleton.
Defined.

(** X3.  The sweep reports [True] whatever becomes of its writes.  It writes
    nothing when no whisper is expired; otherwise it attempts exactly two
    writes, the replies file first and the whispers file second, the second
    also when the first has failed. *)
Theorem sweep_writes (w : World) :
  eval cleanup_old_whispers w = true
  /\ journal (exec cleanup_old_whispers w)
     = journal w ++ match expired w with
                    | [] => []
                    | _ :: _ => [replies_json; whispers_json]
                    end
  /\ clock (exec cleanup_old_whispers w) = clock w.
Proof.
  unfold eval, exec. rewrite cleanup_run. simpl.
  destruct (expired w) as [|x l]; simpl.
  - by rewrite app_nil_r.
  - unfold exec, save_data, attempt.
    destruct (head (faults w)) as [[]|]; simpl;
      destruct (head (tail (faults w))) as [[]|]; simpl;
      by rewrite <- app_assoc.
Qed.

(** ** More on the readers *)

(** X4.  The listing answers with the whispers that are in the file once its
    sweep has run and whose topic is the one asked for, all of them when the
    topic is ["all"] or is not given: each exactly as many times as the file
    holds it, and those created at the same instant in the order of the
    file.  The listing changes the files only through its sweep. *)
Theorem listing_selects (w : World) (topic : option string) :
  exists ws,
    eval (get_whispers topic) w = Success ws
    /\ ws ≡ₚ filter (selected topic) (whispers (exec cleanup_old_whispers w))
    /\ (forall k,
          filter (fun y => w_created_at y = k) ws
          = filter (fun y => w_created_at y = k)
              (filter (selected topic)
                      (whispers (exec cleanup_old_whispers w))))
    /\ exec (get_whispers topic) w = exec cleanup_old_whispers w.
Proof.
  change (exec (get_whispers topic) w) with (snd (get_whispers topic w)).
  unfold eval. rewrite get_whispers_run. simpl.
  eexists. split; [done|].
  assert (E : (if decide (default "all" topic <> "all")
               then filter (fun x => w_topic x = default "all" topic)
                           (whispers (exec cleanup_old_whispers w))
               else whispers (exec cleanup_old_whispers w))
              = filter (selected topic)
                       (whispers (exec cleanup_old_whispers w))).
  { unfold selected. case_decide as Ht.
    - apply list_filter_iff. intros x. split; [auto|]. by intros [?|?].
    - symmetry. apply filter_all. intros x _. left.
      by destruct (decide (default "all" topic = "all")). }
  rewrite E. split_and!; [apply sort_by_key_perm| |done].
  intros k. apply sort_by_key_stable.
Qed.

(** X5.  The lookup answers 404 exactly when no whisper of the file has the
    identifier; otherwise it answers with a whisper of the file that has it,
    and when identifiers are distinct every whisper of the file is found
    under its own identifier.  The lookup changes nothing. *)
Theorem lookup_by_id (w : World) (id : Z) :
  exec (get_whisper id) w = w
  /\ (eval (get_whisper id) w = Failure 404 "Whisper not found"
      <-> forall y, y ∈ whispers w -> w_id y <> id)
  /\ (forall x, eval (get_whisper id) w = Success x ->
                x ∈ whispers w /\ w_id x = id)
  /\ (NoDup (w_id <$> whispers w) ->
      forall x, x ∈ whispers w -> w_id x = id ->
                eval (get_whisper id) w = Success x).
Proof.
  split_and!.
  - unfold get_whisper, exec. step_handler. by destruct (list_find _ _) as [[]|].
  - split; [|apply get_whisper_missing].
    intros E y Hy Hid.
    destruct (list_find_elem_of (fun x => w_id x = id) (whispers w) y Hy Hid)
      as [[i z] Hz].
    by rewrite (get_whisper_found id w i z Hz) in E.
  - apply get_whisper_elem.
  - intros Hnd x Hx Hid.
    destruct (list_find_elem_of (fun x => w_id x = id) (whispers w) x Hx Hid)
      as [[i z] Hz].
    rewrite (get_whisper_found id w i z Hz). f_equal.
    pose proof Hz as (Hi & Hzid & _)%list_find_Some.
    apply list_elem_of_lookup_2 in Hi.
    apply (fmap_NoDup_inj w_id (whispers w) z x Hnd Hi Hx). by rewrite Hzid.
Qed.

Lemma lookup_by_id_witness :
  NoDup (w_id <$> whispers after_hi)
  /\ eval (get_whisper 1) after_hi
     = Success (mkWhisper 1 "hello" "vent" false 1 0).
Proof.
  assert (Hnd : NoDup (w_id <$> whispers after_hi)) by apply NoDup_singleton.
  split; [exact Hnd|].
  apply (proj2 (proj2 (proj2 (lookup_by_id after_hi 1))) Hnd).
  - apply list_elem_of_singleton. reflexivity.
  - reflexivity.
Defined.

(** X6.  The replies of a whisper are answered with the replies of the file
    that reference the identifier asked for, each exactly as many times as
    the file holds it, those created at the same instant in the order of the
    file, and whether or not a whisper with that identifier exists: an
    unknown identifier gives the empty list, not an error.  Nothing is
    changed. *)
Theorem replies_select (w : World) (id : Z) :
  exists rs,
    eval (get_replies id) w = Success rs
    /\ rs ≡ₚ filter (fun r => r_whisper_id r = id) (replies w)
    /\ (forall k,
          filter (fun r => r_created_at r = k) rs
          = filter (fun r => r_created_at r = k)
              (filter (fun r => r_whisper_id r = id) (replies w)))
    /\ ((forall r, r ∈ replies w -> r_whisper_id r <> id) -> rs = [])
    /\ exec (get_replies id) w = w.
Proof.
  unfold get_replies. step_handler. fold (replies w).
  eexists. split; [done|]. split_and!; [apply sort_by_key_perm| | |done].
  - intros k. apply sort_by_key_stable.
  - intros Hnone.
    replace (filter (fun r => r_whisper_id r = id) (replies w))
      with (@nil Reply); [done|].
    symmetry. induction (replies w) as [|r rs IH]; [done|].
    rewrite filter_cons_False by (apply Hnone; left).
    apply IH. intros r' Hr'. apply Hnone. by right.
Qed.

(** ** More on the creation of whispers *)

Lemma truthy_content_Some (data : Body) (text : string) :
  truthy_content data = Some text -> content data = Some text /\ text <> "".
Proof.
  unfold truthy_content. destruct (content data) as [[|c s]|]; [done| |done].
  by intros [= <-].
Qed.

Lemma list_find_fresh_snoc (id : Z) (ws : list Whisper) (x : Whisper) :
  (forall y, y ∈ ws -> w_id y <> w_id x) ->
  list_find (fun y => w_id y = id) (ws ++ [x])
  = match list_find (fun y => w_id y = id) ws with
    | Some found => Some found
    | None => if decide (w_id x = id) then Some (length ws, x) else None
    end.
Proof.
  intros Hfresh.
  destruct (list_find (fun y => w_id y = id) ws) as [[i y]|] eqn:E.
  - by apply list_find_app_l.
  - rewrite list_find_app_r by done. simpl.
    by destruct (decide (w_id x = id)).
Qed.

(** X7.  A whisper that has been created is found: after a [create_whisper]
    that answers with a whisper, a lookup of its identifier answers with
    that same whisper, lookups of any other identifier answer as they did
    before, and a listing served at the same instant, once its sweep has
    written, contains it.  The new whisper has no replies and the instant of
    the call as its date; one write, of the whispers file, was made. *)
Theorem created_whisper_is_found (w : World) (data : Body) (x : Whisper) :
  eval (create_whisper data) w = Success x ->
  let w' := exec (create_whisper data) w in
  eval (get_whisper (w_id x)) w' = Success x
  /\ (forall id, id <> w_id x ->
                 eval (get_whisper id) w' = eval (get_whisper id) w)
  /\ (exists ws, eval (get_whispers None) (with_env (clock w) [] w')
                 = Success ws /\ x ∈ ws)
  /\ w_replies_count x = 0 /\ w_created_at x = clock w
  /\ journal w' = journal w ++ [whispers_json].
Proof.
  intros Hx w'.
  destruct (create_whisper_success data w x Hx) as (text & Ht & Hxeq & Hws & _).
  assert (Hfresh : forall y, y ∈ whispers w -> w_id y <> w_id x).
  { intros y Hy. rewrite Hxeq. simpl.
    apply (list_elem_of_fmap_2 w_id), next_id_fresh in Hy. lia. }
  assert (Hfind : forall id,
             eval (get_whisper id) w'
             = match list_find (fun y => w_id y = id) (whispers w) with
               | Some (_, y) => Success y
               | None => if decide (w_id x = id) then Success x
                         else Failure 404 "Whisper not found"
               end).
  { intros id. unfold get_whisper. step_handler. fold (whispers w').
    subst w'. rewrite Hws, list_find_fresh_snoc by done.
    destruct (list_find _ (whispers w)) as [[i y]|]; [done|].
    by destruct (decide (w_id x = id)). }
  split_and!.
  - rewrite Hfind.
    destruct (list_find _ (whispers w)) as [[i y]|] eqn:E.
    + apply list_find_Some in E as (Hi & Hid & _).
      apply list_elem_of_lookup_2 in Hi. by destruct (Hfresh y Hi).
    + by rewrite decide_True.
  - intros id Hid. rewrite Hfind.
    unfold get_whisper. step_handler. fold (whispers w).
    destruct (list_find _ (whispers w)) as [[i y]|]; [done|].
    by rewrite decide_False.
  - unfold eval. rewrite get_whispers_run. simpl. eexists. split; [done|].
    apply elem_of_sort_by_key.
    destruct (cleanup_files (with_env (clock w) [] w') eq_refl) as (-> & _).
    apply list_elem_of_filter. split.
    + unfold cutoff, timedelta_hours. rewrite Hxeq. simpl. lia.
    + unfold whispers at 1. simpl. fold (whispers w'). subst w'.
      rewrite Hws. apply elem_of_app. right. by left.
  - by rewrite Hxeq.
  - by rewrite Hxeq.
  - subst w'. unfold exec. rewrite (create_whisper_run data w text Ht). simpl.
    unfold exec, save_data. by destruct (head (faults w)) as [[]|].
Qed.

Lemma created_whisper_is_found_witness :
  eval (create_whisper hi) after_hello
  = Success (mkWhisper 2 "hi" "random" false 0 0)
  /\ eval (get_whisper 2) (exec (create_whisper hi) after_hello)
     = Success (mkWhisper 2 "hi" "random" false 0 0).
Proof.
  split; [reflexivity|].
  exact (proj1 (created_whisper_is_found after_hello hi
                  (mkWhisper 2 "hi" "random" false 0 0) eq_refl)).
Defined.

(** How [create_whisper] fails on a body whose content is a [str] or absent:
    400 exactly when there is no content or the empty one, and then nothing
    is written; otherwise 500 from a failed write of the whispers file. *)
Lemma create_whisper_failures (w : World) (data : Body) :
  let w' := exec (create_whisper data) w in
  (eval (create_whisper data) w = Failure 400 "Content is required"
   <-> content data = None \/ content data = Some "")
  /\ (forall status error,
        eval (create_whisper data) w = Failure status error ->
        (status = 400 /\ w' = w)
        \/ (status = 500
            /\ (whispers w' = whispers w \/ whispers w' = [])
            /\ replies w' = replies w
            /\ journal w' = journal w ++ [whispers_json])).
Proof.
  intros w'. subst w'. unfold eval, exec.
  destruct (truthy_content data) as [text|] eqn:Ht.
  - rewrite (create_whisper_run data w text Ht). simpl.
    apply truthy_content_Some in Ht as [Hc Hne]. split.
    + split.
      * by destruct (head (faults w)) as [[]|].
      * intros [E|E]; rewrite Hc in E; [done|]. by injection E.
    + intros status error Hfail. right.
      rewrite save_data_other_replies.
      unfold exec, save_data, whispers in *.
      destruct (head (faults w)) as [[]|]; simpl in *; try done;
        injection Hfail as <- _; auto.
  - rewrite create_whisper_rejected by done. simpl. split.
    + split; [|done]. intros _. unfold truthy_content in Ht.
      destruct (content data) as [[|c s]|]; auto; done.
    + intros status error [= <- _]. by left.
Qed.

(** ** More on the creation of replies *)

Lemma create_reply_unknown (id : Z) (data : Body) (w : World) (text : string) :
  truthy_content data = Some text ->
  list_find (fun x => w_id x = id) (whispers w) = None ->
  create_reply id data w = (Failure 404 "Whisper not found", w).
Proof.
  intros Ht Hp. unfold create_reply. rewrite Ht. step_handler.
  fold (whispers w). by rewrite Hp.
Qed.

(** How [create_reply] fails on a body whose content is a [str] or absent:
    400, then 404, nothing being written; otherwise 500 from a failed write
    of the replies file, the whispers file not being written. *)
Lemma create_reply_failures (w : World) (id : Z) (data : Body) :
  let w' := exec (create_reply id data) w in
  (eval (create_reply id data) w = Failure 400 "Content is required"
   <-> content data = None \/ content data = Some "")
  /\ (eval (create_reply id data) w = Failure 404 "Whisper not found"
      <-> ~ (content data = None \/ content data = Some "")
          /\ forall y, y ∈ whispers w -> w_id y <> id)
  /\ (forall status error,
        eval (create_reply id data) w = Failure status error ->
        ((status = 400 \/ status = 404) /\ w' = w)
        \/ (status = 500
            /\ (replies w' = replies w \/ replies w' = [])
            /\ whispers_doc w' = whispers_doc w
            /\ journal w' = journal w ++ [replies_json])).
Proof.
  intros w'. subst w'. unfold eval, exec.
  destruct (truthy_content data) as [text|] eqn:Ht.
  - pose proof (truthy_content_Some data text Ht) as [Hc Hne].
    assert (Hno : ~ (content data = None \/ content data = Some "")).
    { intros [E|E]; rewrite Hc in E; [done|]. by injection E. }
    destruct (list_find (fun x => w_id x = id) (whispers w))
      as [[i p]|] eqn:Hp.
    + rewrite (create_reply_run id data w text i p Ht Hp).
      pose proof Hp as (Hi & Hid & _)%list_find_Some.
      apply list_elem_of_lookup_2 in Hi.
      split_and!.
      * split; [|done]. by destruct (head (faults w)) as [[]|].
      * split.
        -- by destruct (head (faults w)) as [[]|].
        -- intros [_ Hnone]. by destruct (Hnone p Hi).
      * intros status error Hfail. right.
        unfold exec, save_data, replies in *.
        destruct (head (faults w)) as [[]|]; simpl in *; try done;
          injection Hfail as <- _; auto.
    + rewrite (create_reply_unknown id data w text Ht Hp). simpl.
      split_and!.
      * split; done.
      * split; [|done]. intros _. split; [done|].
        apply Forall_forall. by apply list_find_None in Hp.
      * intros status error [= <- _]. left. auto.
  - assert (Hrun : create_reply id data w
                   = (Failure 400 "Content is required", w))
      by (unfold create_reply; by rewrite Ht).
    assert (Hc : content data = None \/ content data = Some "").
    { unfold truthy_content in Ht.
      destruct (content data) as [[|c s]|]; auto; done. }
    rewrite Hrun. simpl. split_and!.
    + done.
    + split; [done|]. by intros [? _].
    + intros status error [= <- _]. left. auto.
Qed.

Lemma sort_by_key_latest {A} (key : A -> Z) (l : list A) (r : A) :
  (forall y, y ∈ l -> key y <= key r) ->
  sort_by_key key false (l ++ [r]) = sort_by_key key false l ++ [r].
Proof.
  assert (Hins : forall a m, key a <= key r ->
            insert_by (key_before key false) a (m ++ [r])
            = insert_by (key_before key false) a m ++ [r]).
  { intros a m Ha. induction m as [|y m IH]; simpl.
    - unfold key_before.
      destruct (Z.leb_spec (key a) (key r)); [done|exfalso; lia].
    - destruct (key a <=? key y); [done|].
      simpl. by rewrite IH. }
  induction l as [|a l IH]; intros Hl; [done|].
  unfold sort_by_key in *. simpl.
  rewrite IH by (intros y Hy; apply Hl; by right).
  apply Hins, Hl. left.
Qed.

(** X10.  A reply that has been created is listed: after a [create_reply]
    that answers with a reply, whatever becomes of the write of the counter,
    the replies of that whisper are those listed before and the new one,
    which carries the identifier of the whisper and the instant of the call;
    the replies of every other whisper are listed as before.  When no listed
    reply is dated after the instant of the call, the new reply comes
    last. *)
Theorem created_reply_is_listed (w : World) (id : Z) (data : Body)
        (r : Reply) (rs : list Reply) :
  eval (create_reply id data) w = Success r ->
  eval (get_replies id) w = Success rs ->
  let w' := exec (create_reply id data) w in
  r_whisper_id r = id /\ r_created_at r = clock w
  /\ (exists rs', eval (get_replies id) w' = Success rs' /\ rs' ≡ₚ rs ++ [r])
  /\ (forall id', id' <> id ->
                  eval (get_replies id') w' = eval (get_replies id') w)
  /\ ((forall y, y ∈ rs -> r_created_at y <= clock w) ->
      eval (get_replies id) w' = Success (rs ++ [r])).
Proof.
  intros Hr Hrs w'.
  destruct (create_reply_success id data w r Hr)
    as (text & i & p & _ & _ & Hreq & Hreplies & _).
  assert (Hid : r_whisper_id r = id) by by rewrite Hreq.
  assert (Hat : r_created_at r = clock w) by by rewrite Hreq.
  assert (Hlist : forall k v,
             eval (get_replies k) v
             = Success (sort_by_key r_created_at false
                          (filter (fun y => r_whisper_id y = k) (replies v))))
    by done.
  rewrite Hlist in Hrs. injection Hrs as <-.
  split_and!; [done|done| | |].
  - rewrite Hlist. eexists. split; [done|]. subst w'.
    rewrite Hreplies, filter_app, filter_cons_True by done.
    by rewrite !sort_by_key_perm.
  - intros id' Hid'. rewrite !Hlist. subst w'.
    rewrite Hreplies, filter_app, filter_cons_False by congruence.
    by rewrite filter_nil, app_nil_r.
  - intros Hlatest. rewrite Hlist. subst w'.
    rewrite Hreplies, filter_app, filter_cons_True by done.
    rewrite filter_nil, sort_by_key_latest; [done|].
    intros y Hy. rewrite Hat. apply Hlatest. by apply elem_of_sort_by_key.
Qed.

Lemma created_reply_is_listed_witness :
  let w := with_env 2000 [] after_hi in
  eval (create_reply 1 hello) w = Success (mkReply 2 1 "hello" 2000)
  /\ eval (get_replies 1) w = Success [mkReply 1 1 "hi" 1000]
  /\ eval (get_replies 1) (exec (create_reply 1 hello) w)
     = Success [mkReply 1 1 "hi" 1000; mkReply 2 1 "hello" 2000].
Proof.
  intros w. split; [reflexivity|]. split; [reflexivity|].
  destruct (created_reply_is_listed w 1 hello (mkReply 2 1 "hello" 2000)
              [mkReply 1 1 "hi" 1000] eq_refl eq_refl)
    as (_ & _ & _ & _ & Hlast).
  apply Hlast. intros y ->%list_elem_of_singleton. vm_compute. discriminate.
Defined.

(** ** Stored text *)

Lemma lstrip_spec (s : string) :
  exists pre, s = pre +:+ lstrip s /\ blank pre /\ clean_start (lstrip s).
Proof.
  induction s as [|c s (pre & E & Hpre & Hclean)]; simpl.
  - by exists "".
  - destruct (isspace c) eqn:Hc.
    + exists (String c pre). simpl. split_and!; try done.
      transitivity (String c (pre +:+ lstrip s)); [by f_equal|reflexivity].
    + by exists "".
Qed.

Lemma rstrip_spec (s : string) :
  exists post,
    s = rstrip s +:+ post /\ blank post /\ clean_end (rstrip s)
    /\ (clean_start s -> clean_start (rstrip s)).
Proof.
  induction s as [|c s (post & E & Hpost & Hend & _)]; simpl.
  - by exists "".
  - destruct (rstrip s) as [|d t] eqn:Hr; simpl in *.
    + change ("" +:+ post) with post in E. subst post.
      destruct (isspace c) eqn:Hc.
      * exists (String c s). by split_and!.
      * exists s. by split_and!.
    + exists post. split_and!; try done.
      transitivity (String c (String d t +:+ post)); [by f_equal|reflexivity].
Qed.

Lemma strip_spec (s : string) :
  exists pre post,
    s = pre +:+ strip s +:+ post
    /\ blank pre /\ blank post
    /\ clean_start (strip s) /\ clean_end (strip s).
Proof.
  destruct (lstrip_spec s) as (pre & E & Hpre & Hstart).
  destruct (rstrip_spec (lstrip s)) as (post & E' & Hpost & Hend & Hkeep).
  exists pre, post. unfold strip. rewrite <- E', <- E. split_and!; auto.
Qed.

(** X11.  The text that is stored is the text of the request without the
    white space around it: the content of a created whisper, and of a
    created reply, is the content of the body less a run of white space
    before it and a run after it, and itself neither starts nor ends with
    white space.  White space inside the text is kept. *)
Theorem stored_text_is_stripped (w : World) (data : Body) :
  (forall x, eval (create_whisper data) w = Success x ->
     exists text pre post,
       content data = Some text /\ text = pre +:+ w_content x +:+ post
       /\ blank pre /\ blank post
       /\ clean_start (w_content x) /\ clean_end (w_content x))
  /\ (forall id r, eval (create_reply id data) w = Success r ->
        exists text pre post,
          content data = Some text /\ text = pre +:+ r_content r +:+ post
          /\ blank pre /\ blank post
          /\ clean_start (r_content r) /\ clean_end (r_content r)).
Proof.
  split.
  - intros x (text & [Hc _]%truthy_content_Some & -> & _)%create_whisper_success.
    destruct (strip_spec text) as (pre & post & H).
    exists text, pre, post. by split.
  - intros id r
      (text & i & p & [Hc _]%truthy_content_Some & _ & -> & _)
        %create_reply_success.
    destruct (strip_spec text) as (pre & post & H).
    exists text, pre, post. by split.
Qed.

Lemma stored_text_is_stripped_witness :
  eval (create_whisper (mkBody (Some "  a b ") None None)) (init_data 0)
  = Success (mkWhisper 1 "a b" "random" false 0 0)
  /\ exists text pre post,
       Some "  a b " = Some text /\ text = pre +:+ "a b" +:+ post
       /\ blank pre /\ blank post /\ clean_start "a b" /\ clean_end "a b".
Proof.
  split; [reflexivity|].
  exact (proj1 (stored_text_is_stripped (init_data 0)
                  (mkBody (Some "  a b ") None None))
               (mkWhisper 1 "a b" "random" false 0 0) eq_refl).
Defined.

(** ** Invariants of the store *)

Lemma run_cons (t : Z) (fs : list SaveOutcome) (rq : Request)
      (history : list (Z * list SaveOutcome * Request)) (w : World) :
  run ((t, fs, rq) :: history) w = run history (after rq (with_env t fs w)).
Proof. done. Qed.

(** X12.  While writes go through the store stays consistent, whatever the
    requests and the instants at which they arrive, sweeps included:
    starting from a consistent store, and so from a fresh data directory,
    identifiers stay distinct, every reply references a whisper that is in
    the file, and the counter of every whisper is the number of replies
    that reference it. *)
Theorem store_stays_consistent
        (history : list (Z * list SaveOutcome * Request)) (w : World) :
  consistent w ->
  Forall (fun e => e.1.2 = []) history ->
  consistent (run history w).
Proof.
  revert w. induction history as [|[[t fs] rq] history IH]; intros w Hw Hh.
  - done.
  - apply Forall_cons in Hh as [Hfs Hh]. simpl in Hfs. subst fs.
    rewrite run_cons. apply IH; [|done].
    by apply after_consistent.
Qed.

Lemma store_stays_consistent_witness :
  consistent (init_data 0)
  /\ consistent
       (run [(0, [], CreateWhisper hello); (1000, [], CreateReply 1 hi);
             (timedelta_hours 49, [], ListWhispers None);
             (timedelta_hours 49, [], CreateWhisper hi)]
            (init_data 0)).
Proof.
  assert (H0 : consistent (init_data 0)).
  { repeat split; simpl; try constructor; by intros ? ?%elem_of_nil. }
  split; [exact H0|].
  apply store_stays_consistent; [exact H0|].
  repeat constructor.
Defined.

Section IdShapes.

(** A property of the list of identifiers of a file that holds of the empty
    list, passes to sublists and is kept when the next identifier is
    appended. *)
Context (Q : list Z -> Prop).
Hypothesis Q_nil : Q [].
Hypothesis Q_sub : forall l k, Q l -> k `sublist_of` l -> Q k.
Hypothesis Q_next : forall l, Q l -> Q (l ++ [max_default 0 l + 1]).

Lemma found_after_shape {A} (f : A -> Z) (o : option SaveOutcome)
      (old new : list A) :
  Q (f <$> old) -> Q (f <$> new) -> Q (f <$> found_after o old new).
Proof. destruct o as [[]|]; simpl; auto. Qed.

Lemma after_keeps_shape (rq : Request) (w : World) :
  Q (w_id <$> whispers w) /\ Q (r_id <$> replies w) ->
  Q (w_id <$> whispers (after rq w)) /\ Q (r_id <$> replies (after rq w)).
Proof.
  intros [Hw Hr].
  assert (Hsweep : Q (w_id <$> whispers (exec cleanup_old_whispers w))
                   /\ Q (r_id <$> replies (exec cleanup_old_whispers w))).
  { unfold exec. rewrite cleanup_run. simpl.
    destruct (expired w) as [|x l]; [done|]. split.
    - rewrite save_whispers_found, save_data_other_whispers.
      apply found_after_shape; [done|].
      eapply Q_sub; [exact Hw|]. apply fmap_sublist, sublist_filter.
    - rewrite save_data_other_replies, save_replies_found.
      apply found_after_shape; [done|].
      eapply Q_sub; [exact Hr|]. apply fmap_sublist, sublist_filter. }
  destruct rq as [topic|id|data|id|id data]; simpl.
  - unfold exec. by rewrite get_whispers_run.
  - unfold get_whisper, exec. step_handler. by destruct (list_find _ _) as [[]|].
  - unfold exec. destruct (truthy_content data) as [text|] eqn:Ht;
      [|by rewrite create_whisper_rejected].
    rewrite (create_whisper_run data w text Ht). simpl.
    rewrite save_whispers_found, save_data_other_replies. split; [|done].
    apply found_after_shape; [done|]. rewrite fmap_app. by apply Q_next.
  - done.
  - unfold exec.
    destruct (truthy_content data) as [text|] eqn:Ht;
      [|by unfold create_reply; rewrite Ht].
    destruct (list_find (fun x => w_id x = id) (whispers w))
      as [[i p]|] eqn:Hp; [|by rewrite (create_reply_unknown _ _ _ text)].
    rewrite (create_reply_run id data w text i p Ht Hp).
    set (r := mkReply _ _ _ _).
    assert (Hrs : Q (r_id <$> found_after (head (faults w)) (replies w)
                                           (replies w ++ [r]))).
    { apply found_after_shape; [done|]. rewrite fmap_app. by apply Q_next. }
    assert (Hids : w_id <$> <[i := set_replies_count
                                     (references id (replies w ++ [r])) p]>
                              (whispers w) = w_id <$> whispers w).
    { rewrite list_fmap_insert. apply list_insert_id.
      apply list_find_Some in Hp as (Hi & _ & _).
      by rewrite list_lookup_fmap, Hi. }
    destruct (head (faults w)) as [[]|] eqn:Hh; simpl; split;
      rewrite ?save_whispers_found, ?save_data_other_whispers,
        ?save_data_other_replies, ?save_replies_found, ?Hh; try done;
      apply found_after_shape; try done; by rewrite Hids.
Qed.

Lemma run_keeps_shape (history : list (Z * list SaveOutcome * Request))
      (w : World) :
  Q (w_id <$> whispers w) /\ Q (r_id <$> replies w) ->
  Q (w_id <$> whispers (run history w))
  /\ Q (r_id <$> replies (run history w)).
Proof.
  revert w. induction history as [|[[t fs] rq] history IH]; intros w Hw.
  - done.
  - rewrite run_cons. apply IH. by apply after_keeps_shape.
Qed.

End IdShapes.

Lemma ascending_sublist (l k : list Z) :
  ascending l -> k `sublist_of` l -> ascending k.
Proof.
  intros [Hs Hp] Hk. split.
  - clear Hp. revert k Hk.
    induction Hs as [|x l Hs IH Hx]; intros k Hk.
    + apply sublist_nil_r in Hk as ->. constructor.
    + apply sublist_cons_r in Hk as [Hk|(k' & -> & Hk)]; [by apply IH|].
      constructor; [by apply IH|].
      apply Forall_forall. intros y Hy.
      eapply Forall_forall in Hx; [exact Hx|].
      by eapply sublist_subseteq.
  - apply Forall_forall. intros y Hy.
    eapply Forall_forall in Hp; [exact Hp|]. by eapply sublist_subseteq.
Qed.

Lemma ascending_next (l : list Z) :
  ascending l -> ascending (l ++ [max_default 0 l + 1]).
Proof.
  intros [Hs Hp]. split.
  - apply StronglySorted_app_2; [|done|repeat constructor].
    intros x y Hx ->%list_elem_of_singleton. by apply next_id_fresh.
  - apply Forall_app. split; [done|]. constructor; [|constructor].
    destruct l as [|a l]; [simpl; lia|].
    assert (Ha : a ∈ a :: l) by left.
    pose proof (max_default_upper 0 _ _ Ha).
    apply Forall_cons in Hp as [? _]. lia.
Qed.

(** X13.  Whatever the requests, the instants and the outcomes of the writes,
    failed ones included, the identifiers of each file start at 1 or above
    and grow strictly along the file: the newest record is the last one and
    has the largest identifier. *)
Theorem ids_ascend (history : list (Z * list SaveOutcome * Request))
        (w : World) :
  ascending_ids w -> ascending_ids (run history w).
Proof.
  apply (run_keeps_shape ascending).
  - split; constructor.
  - apply ascending_sublist.
  - apply ascending_next.
Qed.

Lemma ids_ascend_witness :
  ascending_ids (init_data 0)
  /\ ascending_ids
       (run [(0, [DumpFailed], CreateWhisper hello);
             (5, [], CreateWhisper hello);
             (9, [Written; OpenFailed], CreateReply 1 hi);
             (timedelta_hours 49, [OpenFailed], ListWhispers None)]
            (init_data 0)).
Proof.
  assert (H0 : ascending_ids (init_data 0)) by (repeat split; constructor).
  split; [exact H0|]. by apply ids_ascend.
Defined.

(** ** Sweeps that follow one another, and sweeps whose writes fail *)

Lemma filter_none {A} (P : A -> Prop) `{forall x, Decision (P x)} (l : list A) :
  (forall x, x ∈ l -> ~ P x) -> filter P l = [].
Proof.
  induction l as [|x l IH]; intros HP; [done|].
  rewrite filter_cons_False by (apply HP; left).
  apply IH. intros y Hy. apply HP. by right.
Qed.

(** The two files after a sweep, whatever becomes of its writes. *)
Lemma cleanup_files_any (w : World) :
  expired w <> [] ->
  whispers (exec cleanup_old_whispers w)
  = found_after (head (tail (faults w))) (whispers w) (kept w)
  /\ replies (exec cleanup_old_whispers w)
     = found_after (head (faults w)) (replies w)
         (filter (fun r => r_whisper_id r ∉ deleted_ids w) (replies w)).
Proof.
  intros He.
  change (exec cleanup_old_whispers w) with (snd (cleanup_old_whispers w)).
  rewrite cleanup_run. simpl.
  destruct (expired w) as [|x l] eqn:E; [done|].
  rewrite save_whispers_found, save_data_other_whispers.
  rewrite save_data_other_replies, save_replies_found.
  destruct (save_data_env REPLIES_FILE
              (filter (fun r => r_whisper_id r ∉ (w_id <$> x :: l)) (replies w))
              w) as [-> _].
  unfold deleted_ids. by rewrite E.
Qed.

Lemma deleted_ids_later (w : World) (t t' : Z) (fs fs' : list SaveOutcome)
      (id : Z) :
  t <= t' ->
  id ∈ deleted_ids (with_env t fs w) -> id ∈ deleted_ids (with_env t' fs' w).
Proof.
  intros Ht. unfold deleted_ids, expired, cutoff. simpl.
  rewrite !list_elem_of_fmap.
  intros (y & E & [Hy Hin]%list_elem_of_filter). exists y. split; [done|].
  apply list_elem_of_filter. split; [lia|done].
Qed.

(** X14.  Two sweeps in a row do what the later one does alone: with writes
    going through, sweeping at an instant and again at a later one leaves in
    both files what a single sweep at the later instant leaves. *)
Theorem sweeps_compose (w : World) (t t' : Z) :
  t <= t' ->
  let once := exec cleanup_old_whispers (with_env t' [] w) in
  let twice :=
    exec cleanup_old_whispers
         (with_env t' [] (exec cleanup_old_whispers (with_env t [] w))) in
  whispers twice = whispers once /\ replies twice = replies once.
Proof.
  intros Ht once twice. subst once twice.
  destruct (cleanup_files (with_env t [] w) eq_refl) as (Hw1 & Hr1 & _).
  set (a := exec cleanup_old_whispers (with_env t [] w)) in *.
  destruct (cleanup_files (with_env t' [] a) eq_refl) as (-> & -> & _).
  destruct (cleanup_files (with_env t' [] w) eq_refl) as (-> & -> & _).
  assert (Hkept : kept (with_env t' [] a) = kept (with_env t' [] w)).
  { unfold kept. replace (whispers (with_env t' [] a)) with (whispers a) by done.
    rewrite Hw1. unfold kept.
    replace (whispers (with_env t [] w)) with (whispers w) by done.
    replace (whispers (with_env t' [] w)) with (whispers w) by done.
    apply list_filter_filter_l. intros x. unfold cutoff. simpl. lia. }
  split; [done|].
  replace (replies (with_env t' [] a)) with (replies a) by done.
  rewrite Hr1.
  replace (replies (with_env t [] w)) with (replies w) by done.
  replace (replies (with_env t' [] w)) with (replies w) by done.
  rewrite list_filter_filter. apply list_filter_iff. intros r. split.
  - intros [H2 H1] (y & E & [Hold Hy]%list_elem_of_filter)%list_elem_of_fmap.
    replace (whispers (with_env t' [] w)) with (whispers w) in Hy by done.
    destruct (decide (cutoff (with_env t [] w) < w_created_at y)) as [Hf|Hf].
    + apply H2. unfold deleted_ids. rewrite list_elem_of_fmap. exists y.
      split; [done|]. apply list_elem_of_filter. split; [done|].
      replace (whispers (with_env t' [] a)) with (whispers a) by done.
      rewrite Hw1. by apply list_elem_of_filter.
    + apply H1. unfold deleted_ids. rewrite list_elem_of_fmap. exists y.
      split; [done|]. by apply list_elem_of_filter.
  - intros H. split.
    + intros (y & E & [Hold Hy]%list_elem_of_filter)%list_elem_of_fmap.
      apply H. unfold deleted_ids. rewrite list_elem_of_fmap. exists y.
      split; [done|]. apply list_elem_of_filter. split; [done|].
      replace (whispers (with_env t' [] a)) with (whispers a) in Hy by done.
      rewrite Hw1 in Hy. by apply list_elem_of_filter in Hy as [_ ?].
    + intros Hin. apply H. by eapply deleted_ids_later.
Qed.

Lemma sweeps_compose_witness :
  whispers (exec cleanup_old_whispers
              (with_env (timedelta_hours 49) []
                 (exec cleanup_old_whispers (with_env 5 [] after_hi))))
  = whispers (exec cleanup_old_whispers
                (with_env (timedelta_hours 49) [] after_hi)).
Proof.
  refine (proj1 (sweeps_compose after_hi 5 (timedelta_hours 49) _)).
  vm_compute. discriminate.
Defined.

(** X15.  A sweep whose write of the whispers file fails is made good by the
    next one.  When the replies have been written and [open] fails on the
    whispers file, the expired whispers stay in the file while their replies
    are gone; the next sweep whose writes go through, at that instant or
    later, leaves both files as if the failed sweep had not happened. *)
Theorem failed_sweep_is_retried (w : World) (t' : Z)
        (rest : list SaveOutcome) :
  faults w = Written :: OpenFailed :: rest -> clock w <= t' ->
  let failed := exec cleanup_old_whispers w in
  let retried := exec cleanup_old_whispers (with_env t' [] failed) in
  let direct := exec cleanup_old_whispers (with_env t' [] w) in
  whispers failed = whispers w
  /\ replies failed
     = filter (fun r => r_whisper_id r ∉ deleted_ids w) (replies w)
  /\ whispers retried = whispers direct
  /\ replies retried = replies direct.
Proof.
  intros Hf Ht failed retried direct.
  assert (Hfailed : whispers failed = whispers w
            /\ replies failed
               = filter (fun r => r_whisper_id r ∉ deleted_ids w) (replies w)).
  { subst failed. destruct (decide (expired w = [])) as [He|He].
    - unfold exec. rewrite cleanup_noop by done. simpl. split; [done|].
      symmetry. apply filter_all. intros r _. unfold deleted_ids.
      rewrite He. apply not_elem_of_nil.
    - destruct (cleanup_files_any w He) as [-> ->]. by rewrite Hf. }
  destruct Hfailed as [Hw Hr]. split; [done|]. split; [done|].
  subst retried direct.
  destruct (cleanup_files (with_env t' [] failed) eq_refl) as (-> & -> & _).
  destruct (cleanup_files (with_env t' [] w) eq_refl) as (-> & -> & _).
  assert (Hsame : forall fs, deleted_ids (with_env t' fs failed)
                             = deleted_ids (with_env t' fs w)).
  { intros fs. unfold deleted_ids, expired.
    replace (whispers (with_env t' fs failed)) with (whispers failed) by done.
    by rewrite Hw. }
  split.
  - unfold kept.
    replace (whispers (with_env t' [] failed)) with (whispers failed) by done.
    by rewrite Hw.
  - replace (replies (with_env t' [] failed)) with (replies failed) by done.
    rewrite Hr, Hsame.
    replace (replies (with_env t' [] w)) with (replies w) by done.
    apply list_filter_filter_l. intros r Hr' Hin. apply Hr'.
    apply (deleted_ids_later w (clock w) t' (faults w) []); [done|].
    by destruct w.
Qed.

Lemma failed_sweep_is_retried_witness :
  let w := with_env (timedelta_hours 49) [Written; OpenFailed] after_hi in
  whispers (exec cleanup_old_whispers w) = whispers w
  /\ replies (exec cleanup_old_whispers w) = []
  /\ whispers (exec cleanup_old_whispers
                 (with_env (timedelta_hours 50) []
                           (exec cleanup_old_whispers w))) = [].
Proof.
  intros w.
  destruct (failed_sweep_is_retried w (timedelta_hours 50) [] eq_refl)
    as (Hw & Hr & Hw' & _).
  - vm_compute. discriminate.
  - split; [exact Hw|]. split; [by rewrite Hr|]. by rewrite Hw'.
Defined.

(** X16.  A sweep whose write of the replies file fails leaves orphans for
    good.  When [open] fails on the replies file and the whispers file is
    then written, the sweep still reports [True]; the expired whisper is
    gone while every reply to it stays in the file and is still listed, and
    a further sweep at that instant finds nothing expired and writes
    nothing. *)
Theorem failed_reply_sweep_leaves_orphans (w : World) (x : Whisper)
        (r : Reply) (rest : list SaveOutcome) :
  faults w = OpenFailed :: Written :: rest ->
  x ∈ whispers w -> w_created_at x <= cutoff w ->
  r ∈ replies w -> r_whisper_id r = w_id x ->
  let w' := exec cleanup_old_whispers w in
  eval cleanup_old_whispers w = true
  /\ whispers w' = kept w /\ (x ∉ whispers w')
  /\ replies w' = replies w
  /\ (exists rs, eval (get_replies (w_id x)) w' = Success rs /\ r ∈ rs)
  /\ (forall fs, cleanup_old_whispers (with_env (clock w) fs w')
                 = (true, with_env (clock w) fs w')).
Proof.
  intros Hf Hx Hold Hr Hrid w'.
  assert (He : expired w <> []).
  { intros E. assert (Hin : x ∈ expired w)
      by (apply list_elem_of_filter; split; [lia|done]).
    rewrite E in Hin. by apply elem_of_nil in Hin. }
  destruct (cleanup_files_any w He) as [Hw' Hr'].
  rewrite Hf in Hw', Hr'. simpl in Hw', Hr'. fold w' in Hw', Hr'.
  split_and!.
  - unfold eval. by rewrite cleanup_run.
  - done.
  - rewrite Hw'. intros [? _]%list_elem_of_filter. lia.
  - done.
  - unfold get_replies. step_handler. fold (replies w'). eexists.
    split; [done|]. apply elem_of_sort_by_key, list_elem_of_filter.
    by rewrite Hr'.
  - intros fs. apply (cleanup_noop (with_env (clock w) fs w')).
    apply expired_nil_iff.
    replace (whispers (with_env (clock w) fs w')) with (whispers w') by done.
    rewrite Hw'. exact (kept_fresh w).
Qed.

Lemma failed_reply_sweep_leaves_orphans_witness :
  let w := with_env (timedelta_hours 49) [OpenFailed; Written] after_hi in
  whispers (exec cleanup_old_whispers w) = []
  /\ replies (exec cleanup_old_whispers w) = [mkReply 1 1 "hi" 1000].
Proof.
  intros w.
  destruct (failed_reply_sweep_leaves_orphans w
              (mkWhisper 1 "hello" "vent" false 1 0) (mkReply 1 1 "hi" 1000) []
              eq_refl) as (_ & Hw & _ & Hr & _).
  - apply list_elem_of_singleton. reflexivity.
  - vm_compute. discriminate.
  - apply list_elem_of_singleton. reflexivity.
  - reflexivity.
  - split; [by rewrite Hw|by rewrite Hr].
Defined.

(** X17.  The listing reads the file again after its sweep and does not look
    at what the sweep reports: when [open] fails on the whispers file, every
    expired whisper of the topic asked for is in the answer. *)
Theorem listing_serves_unswept (w : World) (topic : option string)
        (o : SaveOutcome) (rest : list SaveOutcome) (x : Whisper) :
  faults w = o :: OpenFailed :: rest ->
  x ∈ whispers w -> w_created_at x <= cutoff w -> selected topic x ->
  exists ws, eval (get_whispers topic) w = Success ws /\ x ∈ ws.
Proof.
  intros Hf Hx Hold Hsel.
  assert (He : expired w <> []).
  { intros E. assert (Hin : x ∈ expired w)
      by (apply list_elem_of_filter; split; [lia|done]).
    rewrite E in Hin. by apply elem_of_nil in Hin. }
  destruct (cleanup_files_any w He) as [Hw' _].
  rewrite Hf in Hw'. simpl in Hw'.
  unfold eval. rewrite get_whispers_run. simpl. eexists. split; [done|].
  apply elem_of_sort_by_key. rewrite Hw'.
  case_decide as Ht; [|done].
  apply list_elem_of_filter. split; [|done].
  by destruct Hsel.
Qed.

Lemma listing_serves_unswept_witness :
  let w := with_env (timedelta_hours 49) [Written; OpenFailed] after_hi in
  exists ws, eval (get_whispers (Some "vent")) w = Success ws
             /\ mkWhisper 1 "hello" "vent" false 1 0 ∈ ws.
Proof.
  intros w.
  apply (listing_serves_unswept w (Some "vent") Written [] _ eq_refl).
  - apply list_elem_of_singleton. reflexivity.
  - vm_compute. discriminate.
  - right. reflexivity.
Defined.

(** X18.  A reply to a whisper that is expired but not yet swept is accepted,
    since [create_reply] does not sweep, and lasts until the next sweep:
    with writes going through, the sweep that follows removes it with the
    whisper, and the replies of that identifier are then listed empty. *)
Theorem reply_to_expired_whisper (w : World) (id : Z) (data : Body)
        (text : string) (p : Whisper) :
  faults w = [] ->
  truthy_content data = Some text ->
  eval (get_whisper id) w = Success p ->
  w_created_at p <= cutoff w ->
  exists r,
    eval (create_reply id data) w = Success r
    /\ r ∈ replies (exec (create_reply id data) w)
    /\ forall t, clock w <= t ->
         let swept :=
           exec cleanup_old_whispers
                (with_env t [] (exec (create_reply id data) w)) in
         (r ∉ replies swept) /\ eval (get_replies id) swept = Success [].
Proof.
  intros Hf Ht Hp Hold.
  assert (Hfind : exists i, list_find (fun x => w_id x = id) (whispers w)
                            = Some (i, p)).
  { revert Hp. unfold get_whisper. step_handler. fold (whispers w).
    destruct (list_find _ _) as [[i z]|]; [|done]. intros [= ->]. eauto. }
  destruct Hfind as [i Hfind].
  pose proof Hfind as (Hi & Hid & _)%list_find_Some.
  destruct (eval (create_reply id data) w) as [r|status error] eqn:Hr.
  2:{ unfold eval in Hr.
      by rewrite (create_reply_run id data w text i p Ht Hfind), Hf in Hr. }
  destruct (create_reply_success id data w r Hr)
    as (text' & i' & p' & _ & Hfind' & Hreq & Hrs & Hws & _).
  rewrite Hfind in Hfind'. injection Hfind' as <- <-.
  rewrite Hf in Hws. simpl in Hws.
  exists r. split; [done|]. split.
  { rewrite Hrs. apply elem_of_app. right. by left. }
  intros t Hlater swept. subst swept.
  set (w' := exec (create_reply id data) w) in *.
  destruct (cleanup_files (with_env t [] w') eq_refl) as (_ & Hswept & _).
  assert (Hdel : id ∈ deleted_ids (with_env t [] w')).
  { unfold deleted_ids. apply list_elem_of_fmap.
    exists (set_replies_count (references id (replies w ++ [r])) p).
    split; [done|]. apply list_elem_of_filter. split.
    - unfold cutoff, timedelta_hours in *. simpl. lia.
    - replace (whispers (with_env t [] w')) with (whispers w') by done.
      rewrite Hws. eapply list_elem_of_lookup_2.
      apply list_lookup_insert_eq. by eapply lookup_lt_Some. }
  assert (Hgone : forall y, y ∈ replies
                     (exec cleanup_old_whispers (with_env t [] w')) ->
                   r_whisper_id y <> id).
  { intros y. rewrite Hswept. intros [Hy _]%list_elem_of_filter E.
    apply Hy. by rewrite E. }
  split.
  - intros Hin. apply (Hgone r Hin). by rewrite Hreq.
  - unfold get_replies. step_handler.
    fold (replies (exec cleanup_old_whispers (with_env t [] w'))).
    rewrite filter_none; [done|]. intros y Hy. by apply Hgone.
Qed.

Lemma reply_to_expired_whisper_witness :
  exists r,
    eval (create_reply 1 hello) two_days_later = Success r
    /\ r ∈ replies (exec (create_reply 1 hello) two_days_later)
    /\ forall t, clock two_days_later <= t ->
         (r ∉ replies (exec cleanup_old_whispers
                         (with_env t [] (exec (create_reply 1 hello)
                                              two_days_later))))
         /\ eval (get_replies 1)
                 (exec cleanup_old_whispers
                    (with_env t [] (exec (create_reply 1 hello)
                                         two_days_later)))
            = Success [].
Proof.
  apply (reply_to_expired_whisper two_days_later 1 hello "hello"
           (mkWhisper 1 "hello" "vent" false 1 0)).
  - reflexivity.
  - reflexivity.
  - reflexivity.
  - vm_compute. discriminate.
Defined.

Lemma get_whispers_fresh_witness :
  let w := with_env (timedelta_hours 49) []
             (exec (at_time (timedelta_hours 2) (create_whisper hi)) after_hi) in
  faults w = []
  /\ eval (get_whispers None) w
     = Success [mkWhisper 2 "hi" "random" false 0 (timedelta_hours 2)]
  /\ cutoff w < timedelta_hours 2.
Proof.
  intros w. split; [reflexivity|]. split; [reflexivity|].
  apply (get_whispers_fresh w None
           [mkWhisper 2 "hi" "random" false 0 (timedelta_hours 2)]
           (mkWhisper 2 "hi" "random" false 0 (timedelta_hours 2))).
  - reflexivity.
  - reflexivity.
  - apply list_elem_of_singleton. reflexivity.
Defined.

(** ** Records are never edited *)

Lemma found_after_elem {A} (o : option SaveOutcome) (old new : list A) (y : A) :
  y ∈ found_after o old new ->
  y ∈ old \/ (y ∈ new /\ (o = None \/ o = Some Written)).
Proof. destruct o as [[]|]; simpl; auto. by intros ?%elem_of_nil. Qed.

(** X20.  No request edits a record, whatever becomes of its writes.  A
    whisper that is in the file after a request was in the file before it
    with the same identifier, content, topic, flag and date, only its
    counter of replies possibly changed, unless it is the whisper that a
    [create_whisper] request has just made, dated at the instant of the
    request and without replies.  A reply that is in the file after a request
    was in the file before it, unchanged, unless it is the reply that a
    [create_reply] request has just made for its whisper. *)
Theorem records_are_never_edited (rq : Request) (w : World) :
  (forall y, y ∈ whispers (after rq w) ->
     (exists y0, y0 ∈ whispers w /\ same_post y y0)
     \/ (exists data, rq = CreateWhisper data
                      /\ eval (create_whisper data) w = Success y
                      /\ w_created_at y = clock w /\ w_replies_count y = 0))
  /\ (forall r, r ∈ replies (after rq w) ->
        r ∈ replies w
        \/ (exists id data, rq = CreateReply id data
                            /\ eval (create_reply id data) w = Success r
                            /\ r_whisper_id r = id
                            /\ r_created_at r = clock w)).
Proof.
  assert (Hold : forall y : Whisper, y ∈ whispers w ->
            exists y0, y0 ∈ whispers w /\ same_post y y0) by (by eexists).
  destruct rq as [topic|id|data|id|id data]; simpl.
  - change (exec (get_whispers topic) w) with (snd (get_whispers topic w)).
    rewrite get_whispers_run. simpl. split.
    + intros y Hy%cleanup_whispers_subseteq. auto.
    + intros r Hr%cleanup_replies_subseteq. auto.
  - assert (E : exec (get_whisper id) w = w).
    { unfold get_whisper, exec. step_handler.
      by destruct (list_find _ _) as [[]|]. }
    rewrite E. auto.
  - unfold exec, eval.
    destruct (truthy_content data) as [text|] eqn:Ht;
      [|rewrite create_whisper_rejected by done; auto].
    rewrite (create_whisper_run data w text Ht). simpl.
    rewrite save_whispers_found, save_data_other_replies. split; [|auto].
    intros y [Hy|[Hy Ho]]%found_after_elem; [auto|].
    apply elem_of_app in Hy as [Hy| ->%list_elem_of_singleton]; [auto|].
    right. exists data. rewrite (create_whisper_run data w text Ht). simpl.
    by destruct Ho as [-> | ->].
  - auto.
  - unfold exec, eval.
    destruct (truthy_content data) as [text|] eqn:Ht;
      [|unfold create_reply; rewrite Ht; auto].
    destruct (list_find (fun x => w_id x = id) (whispers w))
      as [[i p]|] eqn:Hp;
      [|rewrite (create_reply_unknown id data w text Ht Hp); auto].
    rewrite (create_reply_run id data w text i p Ht Hp).
    pose proof Hp as (Hi & _ & _)%list_find_Some.
    set (r0 := mkReply _ _ _ _).
    assert (Hnew : forall r, r ∈ replies w ++ [r0] -> r ∈ replies w \/ r = r0).
    { intros r [?| ->%list_elem_of_singleton]%elem_of_app; auto. }
    destruct (head (faults w)) as [[]|] eqn:Hh; simpl;
      rewrite ?save_whispers_found, ?save_data_other_whispers,
        ?save_data_other_replies, ?save_replies_found, ?Hh; simpl;
      (split; [|try by auto]).
    + intros y [Hy|[Hy _]]%found_after_elem; [auto|].
      apply list_elem_of_lookup_1 in Hy as [j Hj].
      apply list_lookup_insert_Some in Hj as [(_ & <- & _)|[_ Hj]].
      * left. exists p. split; [by eapply list_elem_of_lookup_2|done].
      * left. exists y. split; [by eapply list_elem_of_lookup_2|done].
    + intros r [Hr| ->]%Hnew; [auto|]. right. exists id, data.
      by rewrite (create_reply_run id data w text i p Ht Hp), Hh.
    + intros y Hy. auto.
    + intros y Hy. auto.
    + intros r ?%elem_of_nil. done.
    + intros y [Hy|[Hy _]]%found_after_elem; [auto|].
      apply list_elem_of_lookup_1 in Hy as [j Hj].
      apply list_lookup_insert_Some in Hj as [(_ & <- & _)|[_ Hj]].
      * left. exists p. split; [by eapply list_elem_of_lookup_2|done].
      * left. exists y. split; [by eapply list_elem_of_lookup_2|done].
    + intros r [Hr| ->]%Hnew; [auto|]. right. exists id, data.
      by rewrite (create_reply_run id data w text i p Ht Hp), Hh.
Qed.

(** ** The failures and the edge cases, on the scenario *)

Lemma replies_select_witness :
  exists rs, eval (get_replies 7) after_hi = Success rs /\ rs = [].
Proof.
  destruct (replies_select after_hi 7) as (rs & Hrs & _ & _ & Hnone & _).
  exists rs. split; [exact Hrs|]. apply Hnone.
  intros r ->%list_elem_of_singleton. discriminate.
Defined.

Lemma records_are_never_edited_witness :
  let w := with_env 2000 [Written; OpenFailed] after_hi in
  mkReply 2 1 "hello" 2000 ∈ replies (after (CreateReply 1 hello) w)
  /\ (mkReply 2 1 "hello" 2000 ∈ replies w
      \/ exists id data,
           CreateReply 1 hello = CreateReply id data
           /\ eval (create_reply id data) w = Success (mkReply 2 1 "hello" 2000)
           /\ r_whisper_id (mkReply 2 1 "hello" 2000) = id
           /\ r_created_at (mkReply 2 1 "hello" 2000) = clock w).
Proof.
  intros w.
  assert (Hin : mkReply 2 1 "hello" 2000 ∈ replies (after (CreateReply 1 hello) w)).
  { apply elem_of_cons. right. apply list_elem_of_singleton. reflexivity. }
  split; [exact Hin|].
  exact (proj2 (records_are_never_edited (CreateReply 1 hello) w) _ Hin).
Defined.

(** ** The handlers with their [except] clause *)

Ltac step_raising :=
  unfold except_Exception, bind_raising, content_missing, data_get_content,
    data_content_strip, get_json, returns, raise, lift;
  step_handler.

(** On a body whose content is a [str] or absent, the handlers with their
    [except] clause are the handlers without it: nothing is raised. *)
Lemma create_whisper_handler_typed (data : Body) (w : World) :
  create_whisper_handler (typed_body data) w = create_whisper data w.
Proof.
  unfold create_whisper_handler, create_whisper, typed_body, truthy_content.
  destruct (content data) as [[|c s]|]; step_raising; try done.
  unfold save_data. by destruct (head (faults w)) as [[]|].
Qed.

Lemma create_reply_handler_typed (id : Z) (data : Body) (w : World) :
  create_reply_handler id (typed_body data) w = create_reply id data w.
Proof.
  unfold create_reply_handler, create_reply, typed_body, truthy_content.
  destruct (content data) as [[|c s]|]; step_raising; try done.
  destruct (list_find _ _) as [[i p]|]; simpl; [|done].
  unfold save_data.
  destruct (head (faults w)) as [[]|]; simpl; try done;
    by destruct (head (tail (faults w))) as [[]|].
Qed.

Example handler_answers :
  eval (create_whisper_handler
          (GetJsonReturns (Dict (Some (PyInt 5)) None None))) after_hi
  = Failure 500 "'int' object has no attribute 'strip'"
  /\ eval (create_reply_handler 7
             (GetJsonReturns (Dict (Some (PyInt 5)) None None))) after_hi
     = Failure 404 "Whisper not found"
  /\ eval (create_reply_handler 1
             (GetJsonReturns (Dict (Some (PyList true)) None None))) after_hi
     = Failure 500 "'list' object has no attribute 'strip'"
  /\ eval (create_whisper_handler (GetJsonReturns (NotDict (PyStr "abc"))))
          after_hi
     = Failure 500 "'str' object has no attribute 'get'"
  /\ eval (create_whisper_handler (GetJsonReturns (NotDict (PyInt 0))))
          after_hi
     = Failure 400 "Content is required"
  /\ eval (create_whisper_handler
             (GetJsonReturns (Dict (Some (PyBool false)) None None))) after_hi
     = Failure 400 "Content is required".
Proof. by split_and!. Qed.

Lemma handler_raises_untouched (request : Payload) (w : World)
      (message : string) :
  raises_in_handler request = Some message ->
  content_of request = None ->
  create_whisper_handler request w = (Failure 500 message, w)
  /\ forall id, create_reply_handler id request w = (Failure 500 message, w).
Proof.
  unfold create_whisper_handler, create_reply_handler.
  destruct request as [m|[v|[v|] t f]]; simpl.
  - intros [= <-] _. by step_raising.
  - destruct v as [|b|n|nz|s|ne|ne]; simpl; try done.
    + destruct b; [|done]. intros [= <-] _. by step_raising.
    + destruct (n =? 0) eqn:E; [done|]. intros [= <-] _.
      step_raising. by rewrite E.
    + destruct nz; [|done]. intros [= <-] _. by step_raising.
    + destruct s as [|c s]; [done|]. intros [= <-] _. by step_raising.
    + destruct ne; [|done]. intros [= <-] _. by step_raising.
  - destruct v as [|b|n|nz|s|ne|ne]; simpl; try done.
    + by destruct b.
    + by destruct (n =? 0).
    + by destruct nz.
    + by destruct ne.
    + by destruct ne.
  - done.
Qed.

Lemma handler_without_content (request : Payload) (w : World) :
  without_content request = true ->
  create_whisper_handler request w = (Failure 400 "Content is required", w)
  /\ forall id,
       create_reply_handler id request w
       = (Failure 400 "Content is required", w).
Proof.
  unfold create_whisper_handler, create_reply_handler.
  destruct request as [m|[v|[v|] t f]]; simpl; [done| | |by step_raising].
  - destruct v as [|b|n|nz|s|ne|ne]; simpl; try by step_raising.
    + destruct b; [done|]. by step_raising.
    + destruct (n =? 0) eqn:E; [|done]. step_raising. by rewrite E.
    + destruct nz; [done|]. by step_raising.
    + destruct s as [|c s]; [|done]. by step_raising.
    + destruct ne; [done|]. by step_raising.
    + destruct ne; by step_raising.
  - destruct v as [|b|n|nz|s|ne|ne]; simpl; try by step_raising.
    + destruct b; [done|]. by step_raising.
    + destruct (n =? 0) eqn:E; [|done]. step_raising. by rewrite E.
    + destruct nz; [done|]. by step_raising.
    + destruct s as [|c s]; [|done]. by step_raising.
    + destruct ne; [done|]. by step_raising.
    + destruct ne; [done|]. by step_raising.
Qed.

(** A request is of one kind only: without content, raising before the
    content is used, or with a truthy content. *)
Lemma request_kinds (request : Payload) :
  (without_content request = true
   /\ raises_in_handler request = None /\ content_of request = None)
  \/ (without_content request = false
      /\ is_Some (raises_in_handler request) /\ content_of request = None)
  \/ (without_content request = false
      /\ exists v, content_of request = Some v /\ py_truthy v = true
         /\ (exists topic flag,
               request = GetJsonReturns (Dict (Some v) topic flag))
         /\ raises_in_handler request
            = match v with
              | PyStr _ => None
              | _ => Some (AttributeError v "strip")
              end).
Proof.
  destruct request as [m|[v|[v|] t f]]; simpl.
  - right. left. eauto.
  - destruct v as [|b|n|nz|s|ne|ne]; simpl; auto.
    + destruct b; simpl; [right; left; eauto|auto].
    + destruct (n =? 0); simpl; [auto|right; left; eauto].
    + destruct nz; simpl; [right; left; eauto|auto].
    + destruct s; simpl; [auto|right; left; eauto].
    + destruct ne; simpl; [right; left; eauto|auto].
  - destruct (py_truthy v) eqn:E.
    + right. right. split; [done|]. exists v. split_and!; eauto.
    + left. by destruct v.
  - auto.
Qed.

Lemma handler_bad_content (v : PyValue) (topic : option string)
      (flag : option bool) (w : World) :
  py_truthy v = true -> (forall s, v <> PyStr s) ->
  create_whisper_handler (GetJsonReturns (Dict (Some v) topic flag)) w
  = (Failure 500 (AttributeError v "strip"), w)
  /\ forall id,
       create_reply_handler id (GetJsonReturns (Dict (Some v) topic flag)) w
       = (match list_find (fun x => w_id x = id) (whispers w) with
          | None => Failure 404 "Whisper not found"
          | Some _ => Failure 500 (AttributeError v "strip")
          end, w).
Proof.
  intros Hv Hstr. unfold create_whisper_handler, create_reply_handler.
  destruct v as [|b|n|nz|s|ne|ne]; simpl in Hv; try done.
  - subst b. split; [by step_raising|]. intros id. step_raising.
    fold (whispers w). by destruct (list_find _ _) as [[i p]|].
  - split; [step_raising; by rewrite Hv|]. intros id. step_raising.
    rewrite Hv. simpl. fold (whispers w).
    by destruct (list_find _ _) as [[i p]|].
  - subst nz. split; [by step_raising|]. intros id. step_raising.
    fold (whispers w). by destruct (list_find _ _) as [[i p]|].
  - by destruct (Hstr s).
  - subst ne. split; [by step_raising|]. intros id. step_raising.
    fold (whispers w). by destruct (list_find _ _) as [[i p]|].
  - subst ne. split; [by step_raising|]. intros id. step_raising.
    fold (whispers w). by destruct (list_find _ _) as [[i p]|].
Qed.

Lemma py_truthy_str (text : string) :
  py_truthy (PyStr text) = true ->
  truthy_content (mkBody (Some text) None None) = Some text /\ text <> "".
Proof. by destruct text. Qed.

(** X8.  How [create_whisper] fails, its [except] clause included, for any
    body whose topic and flag, when present, are a string and a boolean.  It
    answers 400 exactly when the body is falsy, or has no content, or has a
    falsy content of any type, and then nothing is changed.  When [get_json]
    raises, when the body is a truthy value that is not a dict, or when the
    content is a truthy value that is not a [str], the exception is caught
    and answered with 500 and its text, and nothing is changed.  Any other
    failure is the 500 of a failed write of the whispers file, for a content
    that is a [str]: the new whisper is not in the file, which holds what
    it held or is unreadable, and the replies file is untouched.  So a write
    is attempted only for a content that is a [str] and not empty. *)
Theorem create_whisper_handler_failures (request : Payload) (w : World) :
  let answer := eval (create_whisper_handler request) w in
  let w' := exec (create_whisper_handler request) w in
  (answer = Failure 400 "Content is required"
   <-> without_content request = true)
  /\ (forall message, raises_in_handler request = Some message ->
        answer = Failure 500 message /\ w' = w)
  /\ (forall status error, answer = Failure status error ->
        (status = 400 /\ without_content request = true /\ w' = w)
        \/ (status = 500 /\ raises_in_handler request = Some error /\ w' = w)
        \/ (status = 500 /\ error = "Failed to save whisper"
            /\ (exists text, content_of request = Some (PyStr text))
            /\ (whispers w' = whispers w \/ whispers w' = [])
            /\ replies w' = replies w
            /\ journal w' = journal w ++ [whispers_json]))
  /\ (w' <> w ->
      exists text, content_of request = Some (PyStr text) /\ text <> ""
                   /\ journal w' = journal w ++ [whispers_json]).
Proof.
  intros answer w'. subst answer w'. unfold eval, exec.
  destruct (request_kinds request)
    as [(Hno & Hraise & Hc)|[(Hno & [m Hraise] & Hc)
                            |(Hno & v & Hc & Hv & (t & f & ->) & Hraise)]].
  - destruct (handler_without_content request w Hno) as [-> _]. simpl.
    rewrite Hno, Hraise. split_and!; try done.
    intros status error [= <- <-]. by left.
  - destruct (handler_raises_untouched request w m Hraise Hc) as [-> _].
    simpl. rewrite Hno, Hraise. split_and!; try done.
    + by intros message [= <-].
    + intros status error [= <- <-]. right. by left.
  - assert (Hcase : (exists s, v = PyStr s) \/ forall s, v <> PyStr s)
      by (destruct v; eauto; by right).
    destruct Hcase as [[text ->]|Hstr'].
    + destruct text as [|c s]; [done|]. clear Hno Hraise Hc Hv.
      change (create_whisper_handler
                (GetJsonReturns (Dict (Some (PyStr (String c s))) t f)) w)
        with (create_whisper_handler
                (typed_body (mkBody (Some (String c s)) t f)) w).
      rewrite create_whisper_handler_typed.
      rewrite (create_whisper_run (mkBody (Some (String c s)) t f) w
                 (String c s) eq_refl). simpl.
      rewrite save_data_other_replies.
      set (ws := whispers w ++ _).
      assert (Hj : journal (exec (save_data WHISPERS_FILE ws) w)
                   = journal w ++ [whispers_json]).
      { unfold exec, save_data. by destruct (head (faults w)) as [[]|]. }
      pose proof (save_data_whispers ws w) as Hws.
      split_and!.
      * split; [|done]. by destruct (head (faults w)) as [[]|].
      * done.
      * intros status error Hfail. right. right.
        assert (Hbad : head (faults w) = Some OpenFailed
                       \/ head (faults w) = Some DumpFailed)
          by (destruct (head (faults w)) as [[]|]; auto; done).
        assert (status = 500 /\ error = "Failed to save whisper") as [-> ->].
        { destruct (head (faults w)) as [[]|]; try done;
            by injection Hfail as <- <-. }
        split_and!; eauto.
        unfold exec, save_data, whispers.
        destruct Hbad as [-> | ->]; simpl; auto.
      * intros _. exists (String c s). by split_and!.
    + destruct (handler_bad_content v t f w Hv Hstr') as [-> _]. cbn [fst snd].
      rewrite Hno, Hraise.
      assert (E : match v with
                  | PyStr _ => None
                  | _ => Some (AttributeError v "strip")
                  end = Some (AttributeError v "strip")).
      { destruct v; try done. by destruct (Hstr' s). }
      rewrite E. split_and!; try done.
      * by intros message [= <-].
      * intros status error [= <- <-]. right. by left.
Qed.

Lemma create_whisper_handler_failures_witness :
  raises_in_handler (GetJsonReturns (Dict (Some (PyInt 5)) None None))
  = Some "'int' object has no attribute 'strip'"
  /\ eval (create_whisper_handler
             (GetJsonReturns (Dict (Some (PyInt 5)) None None))) after_hi
     = Failure 500 "'int' object has no attribute 'strip'"
  /\ exec (create_whisper_handler
             (GetJsonReturns (Dict (Some (PyInt 5)) None None))) after_hi
     = after_hi.
Proof.
  split; [reflexivity|].
  exact (proj1 (proj2 (create_whisper_handler_failures
                         (GetJsonReturns (Dict (Some (PyInt 5)) None None))
                         after_hi))
               "'int' object has no attribute 'strip'" eq_refl).
Defined.

(** X9.  How [create_reply] fails, its [except] clause included.  It answers
    400 exactly when the body is falsy, or has no content, or has a falsy
    content of any type, whether or not the whisper exists.  It answers 404
    exactly when the content is truthy, of whatever type, and no whisper of
    the file has the identifier: the whisper is looked up before the content
    is used.  When [get_json] raises, when the body is a truthy value that
    is not a dict, or when the whisper is found and the content is a truthy
    value that is not a [str], the exception is caught and answered with
    500 and its text.  In all these cases nothing is changed.  Any other
    failure is the 500 of a failed write of the replies file, for a content
    that is a [str]: the new reply is not in the file, and the whispers file
    is not written at all, so the counter of the whisper is left as it
    was. *)
Theorem create_reply_handler_failures (id : Z) (request : Payload)
        (w : World) :
  let answer := eval (create_reply_handler id request) w in
  let w' := exec (create_reply_handler id request) w in
  (answer = Failure 400 "Content is required"
   <-> without_content request = true)
  /\ (answer = Failure 404 "Whisper not found"
      <-> is_Some (content_of request)
          /\ forall y, y ∈ whispers w -> w_id y <> id)
  /\ (forall message, raises_in_handler request = Some message ->
        content_of request = None \/ (exists y, y ∈ whispers w /\ w_id y = id) ->
        answer = Failure 500 message /\ w' = w)
  /\ (forall status error, answer = Failure status error ->
        ((status = 400 \/ status = 404) /\ w' = w)
        \/ (status = 500 /\ raises_in_handler request = Some error /\ w' = w)
        \/ (status = 500 /\ error = "Failed to save reply"
            /\ (exists text, content_of request = Some (PyStr text))
            /\ (replies w' = replies w \/ replies w' = [])
            /\ whispers_doc w' = whispers_doc w
            /\ journal w' = journal w ++ [replies_json])).
Proof.
  intros answer w'. subst answer w'. unfold eval, exec.
  assert (Hfound : forall i p,
            list_find (fun x => w_id x = id) (whispers w) = Some (i, p) ->
            (exists y, y ∈ whispers w /\ w_id y = id)
            /\ ~ forall y, y ∈ whispers w -> w_id y <> id).
  { intros i p (Hi & Hid & _)%list_find_Some.
    apply list_elem_of_lookup_2 in Hi. split; [eauto|].
    intros Hnone. by destruct (Hnone p Hi). }
  assert (Hnone : list_find (fun x => w_id x = id) (whispers w) = None ->
            (forall y, y ∈ whispers w -> w_id y <> id)
            /\ ~ exists y, y ∈ whispers w /\ w_id y = id).
  { intros Hnone%list_find_None. rewrite Forall_forall in Hnone.
    split; [done|]. intros (y & Hy & Hid). by destruct (Hnone y Hy). }
  destruct (request_kinds request)
    as [(Hno & Hraise & Hc)|[(Hno & [m Hraise] & Hc)
                            |(Hno & v & Hc & Hv & (t & f & ->) & Hraise)]].
  - destruct (handler_without_content request w Hno) as [_ ->]. simpl.
    rewrite Hno, Hraise, Hc. split_and!; try done.
    + split; [done|]. by intros [[? [=]] _].
    + intros status error [= <- <-]. left. auto.
  - destruct (handler_raises_untouched request w m Hraise Hc) as [_ ->].
    simpl. rewrite Hno, Hraise, Hc. split_and!; try done.
    + split; [done|]. by intros [[? [=]] _].
    + by intros message [= <-].
    + intros status error [= <- <-]. right. by left.
  - assert (Hcase : (exists s, v = PyStr s) \/ forall s, v <> PyStr s)
      by (destruct v; eauto; by right).
    destruct Hcase as [[text ->]|Hstr'].
    + destruct text as [|c s]; [done|]. clear Hno Hraise Hc Hv.
      change (create_reply_handler id
                (GetJsonReturns (Dict (Some (PyStr (String c s))) t f)) w)
        with (create_reply_handler id
                (typed_body (mkBody (Some (String c s)) t f)) w).
      rewrite create_reply_handler_typed.
      destruct (list_find (fun x => w_id x = id) (whispers w))
        as [[i p]|] eqn:Hp.
      * destruct (Hfound i p eq_refl) as [Hex Hnot].
        rewrite (create_reply_run id (mkBody (Some (String c s)) t f) w
                   (String c s) i p eq_refl Hp).
        set (rs := replies w ++ _).
        pose proof (save_data_replies rs w) as Hrs.
        assert (Hj : journal (exec (save_data REPLIES_FILE rs) w)
                     = journal w ++ [replies_json]
                     /\ whispers_doc (exec (save_data REPLIES_FILE rs) w)
                        = whispers_doc w).
        { unfold exec, save_data. by destruct (head (faults w)) as [[]|]. }
        split_and!.
        -- split; [|done]. by destruct (head (faults w)) as [[]|].
        -- split; [|by intros [_ ?]].
           by destruct (head (faults w)) as [[]|].
        -- done.
        -- intros status error Hfail. right. right.
           assert (status = 500 /\ error = "Failed to save reply"
                   /\ (head (faults w) = Some OpenFailed
                       \/ head (faults w) = Some DumpFailed))
             as (-> & -> & Hbad).
           { destruct (head (faults w)) as [[]|]; try done;
               injection Hfail as <- <-; auto. }
           destruct Hj as [Hj Hdoc].
           destruct Hbad as [Hbad|Hbad]; rewrite Hbad; simpl;
             split_and!; eauto;
             unfold exec, save_data, replies; rewrite Hbad; simpl; auto.
      * destruct (Hnone eq_refl) as [Hall Hnex].
        rewrite (create_reply_unknown id (mkBody (Some (String c s)) t f) w
                   (String c s) eq_refl Hp). simpl.
        split_and!; try done.
        intros status error [= <- <-]. left. auto.
    + destruct (handler_bad_content v t f w Hv Hstr') as [_ ->].
      cbn [fst snd]. rewrite Hno, Hraise, Hc.
      assert (E : match v with
                  | PyStr _ => None
                  | _ => Some (AttributeError v "strip")
                  end = Some (AttributeError v "strip")).
      { destruct v; try done. by destruct (Hstr' s). }
      rewrite E.
      destruct (list_find (fun x => w_id x = id) (whispers w))
        as [[i p]|] eqn:Hp.
      * destruct (Hfound i p eq_refl) as [Hex Hnot].
        split_and!; try done.
        -- split; [done|]. intros [_ ?]. by destruct Hnot.
        -- by intros message [= <-].
        -- intros status error [= <- <-]. right. by left.
      * destruct (Hnone eq_refl) as [Hall Hnex].
        split_and!; try done.
        -- intros message _ [[=]|?]. done.
        -- intros status error [= <- <-]. left. auto.
Qed.

Lemma create_reply_handler_failures_witness :
  is_Some (content_of (GetJsonReturns (Dict (Some (PyInt 5)) None None)))
  /\ eval (create_reply_handler 7
             (GetJsonReturns (Dict (Some (PyInt 5)) None None))) after_hi
     = Failure 404 "Whisper not found"
  /\ eval (create_reply_handler 1
             (GetJsonReturns (Dict (Some (PyInt 5)) None None))) after_hi
     = Failure 500 "'int' object has no attribute 'strip'".
Proof.
  assert (Hc : is_Some (content_of
                          (GetJsonReturns (Dict (Some (PyInt 5)) None None))))
    by (by eexists).
  split; [exact Hc|]. split.
  - apply (proj1 (proj2 (create_reply_handler_failures 7
                           (GetJsonReturns (Dict (Some (PyInt 5)) None None))
                           after_hi))).
    split; [exact Hc|].
    intros y ->%list_elem_of_singleton. discriminate.
  - refine (proj1 (proj1 (proj2 (proj2 (create_reply_handler_failures 1
                     (GetJsonReturns (Dict (Some (PyInt 5)) None None))
                     after_hi)))
                   "'int' object has no attribute 'strip'" eq_refl _)).
    right. exists (mkWhisper 1 "hello" "vent" false 1 0). split; [|reflexivity].
    apply list_elem_of_singleton. reflexivity.
Defined.
